(** * ai-service.ts: tag suggestion, matching score and recommendation drafts

    A shallow embedding of [src/lib/ai-service.ts] (class [AIService]) and the
    properties its specification states about it.

    Modelling conventions.
    - A JavaScript string is a [string]: the bytes of its UTF-8 encoding, so
      that the literals below read exactly as in the source.  For well-formed
      text a substring test on the encoding agrees with one on code units.
    - A JavaScript number is a rational [Q].  It is read in two ways.  In
      the exact reading ([calculateMatchingScore]) the arithmetic operations
      are those of [Q]; the bounds and thresholds are stated on it.  In the
      binary64 reading ([calculateMatchingScore64]) every operation rounds
      its exact result to the nearest double, ties to even ([round64]), as
      IEEE 754 prescribes; the value of the score is stated on it.  Signed
      zeros, infinities and NaN are not modelled: the service computes no
      number above 1010.
    - [String.prototype.toLowerCase] and the number-to-string conversion of
      template literals are built-ins of the host language: they are
      parameters of the model ([Section Service]).
    - [Math.random] reads a random source [rand : nat -> Q]; the state that
      is threaded through the calls is the number of draws made so far.
    - All methods are [async] but never wait on anything: a promise is
      modelled by the value (or the exception) it settles with, and
      [Promise.all] over [map] by a left-to-right traversal. Logging is
      omitted.
    - The fields of [ReporterProfile] and [ContentProfile] carry the
      prefixes [r_] and [c_], the interfaces sharing field names. *)

From Stdlib Require Import List String Ascii Bool Arith ZArith Lia.
From Stdlib Require Import QArith Qround Qminmax Lqa DecimalString.
From Stdlib Require Import Qpower Qabs SpecFloat.
Import ListNotations.

Open Scope string_scope.

(** ** Strings *)

(** [s.includes(search)]: [search] occurs in [s] as a contiguous substring. *)
Fixpoint includes (s search : string) : bool :=
  if prefix search s then true
  else match s with
       | EmptyString => false
       | String _ s' => includes s' search
       end.

(** ** Interfaces *)

Inductive TagCategory := INDUSTRY | TOPIC | COMPANY | TECHNOLOGY | EVENT.

Record TagSuggestion := {
  name : string;
  category : TagCategory;
  confidence : Q
}.

Record MatchingScoreResult := {
  reporterId : string;
  contentId : string;
  score : Q;
  reasons : list string
}.

Inductive Tone := FORMAL | CASUAL | URGENT.

Record RecommendationDraft := {
  subject : string;
  body : string;
  tone : Tone
}.

Record ReporterProfile := {
  r_id : string;
  r_name : string;
  r_email : string;
  r_company : string;
  r_socialMedia : option string
}.

Record ContentProfile := {
  c_id : string;
  c_title : string;
  c_summary : string;
  c_body : string;
  c_status : string
}.

Definition mockTags : list TagSuggestion :=
  [ {| name := "AI・機械学習"; category := TECHNOLOGY; confidence := 0.95 |};
    {| name := "IT業界"; category := INDUSTRY; confidence := 0.8 |};
    {| name := "DX・デジタル変革"; category := TECHNOLOGY; confidence := 0.85 |};
    {| name := "リクルート"; category := COMPANY; confidence := 0.9 |} ].

(** ** Numbers *)

(** [x > y] and [x >= y] on numbers. *)
Definition gt_num (x y : Q) : bool := negb (Qle_bool x y).
Definition ge_num (x y : Q) : bool := Qle_bool y x.

(** [Math.round(x)]: the nearest integer, a tie going to the larger one. *)
Definition Math_round (x : Q) : Z := Qfloor (x + (1 # 2)).

(** [Math.min(x, y)]. *)
Definition Math_min (x y : Q) : Q := Qmin x y.

(** ** Completions *)

(** A call either returns a value or throws.  The only exception the
    modelled code can raise is the [TypeError] of a property access on
    [undefined]. *)
Inductive Error := TypeError.

Inductive completion (A : Type) :=
| Normal (a : A)
| Throw (e : Error).
Arguments Normal {A} a.
Arguments Throw {A} e.

(** [Promise.all] over already settled promises: the list of the values,
    or the first rejection. *)
Fixpoint Promise_all {A} (l : list (completion A)) : completion (list A) :=
  match l with
  | [] => Normal []
  | Throw e :: _ => Throw e
  | Normal a :: l' =>
      match Promise_all l' with
      | Normal r => Normal (a :: r)
      | Throw e => Throw e
      end
  end.

(** ** The random source *)

(** A computation that may call [Math.random]: it receives the number of
    draws made so far and returns the new count with its result. *)
Definition Rand (A : Type) : Type := nat -> A * nat.

(** [l.map(f)] for an [f] that draws random numbers, elements visited from
    left to right. *)
Fixpoint map_rand {A B} (f : A -> Rand B) (l : list A) : Rand (list B) :=
  fun n =>
    match l with
    | [] => ([], n)
    | a :: l' =>
        let '(b, n1) := f a n in
        let '(bs, n2) := map_rand f l' n1 in
        (b :: bs, n2)
    end.

Definition nl : string := String (ascii_of_nat 10) EmptyString.

Record Recommendation := {
  rec_reporterId : string;
  draft : RecommendationDraft
}.

Record ProcessResult := {
  tags : list TagSuggestion;
  matchingResults : list MatchingScoreResult;
  recommendations : list Recommendation
}.

(** ** The service *)

Section Service.

(** [String.prototype.toLowerCase]. *)
Variable toLowerCase : string -> string.
(** The conversion of a number to a string in a template literal. *)
Variable numberToString : Q -> string.
(** The successive results of [Math.random()]. *)
Variable rand : nat -> Q.

Definition Math_random : Rand Q := fun n => (rand n, S n).

(** *** generateTags *)

(** The text that the filter callback of [generateTags] inspects. *)
Definition contentText (content : ContentProfile) : string :=
  toLowerCase (c_title content ++ " " ++ c_summary content ++ " " ++ c_body content).

(** The callback passed to [mockTags.filter]. *)
Definition relevantTag (content : ContentProfile) (tag : TagSuggestion) : bool :=
  let contentText := contentText content in
  if includes (name tag) "AI" && includes contentText "ai" then true
  else if includes (name tag) "DX" && includes contentText "dx" then true
  else if includes (name tag) "リクルート" && includes contentText "リクルート" then true
  else if includes (name tag) "IT"
          && (includes contentText "it" || includes contentText "システム") then true
  else false.

(** The [try] block of [generateTags] applies total operations to values of
    the declared types and cannot throw; its handler, which would return
    the empty array, is given by [generateTags_catch]. *)
Definition generateTags (content : ContentProfile) : list TagSuggestion :=
  let relevantTags := filter (relevantTag content) mockTags in
  relevantTags.

Definition generateTags_catch : list TagSuggestion := [].

(** *** extractKeywords *)

Definition keywords : list string :=
  [ "AI"; "DX"; "IT"; "クラウド"; "セキュリティ"; "IoT";
    "スタートアップ"; "投資"; "金融"; "製造"; "教育";
    "リクルート"; "テクノロジー"; "デジタル"; "システム" ].

Definition extractKeywords (text : string) : list string :=
  filter (fun keyword => includes (toLowerCase text) (toLowerCase keyword)) keywords.

(** *** calculateMatchingScore *)

Definition commonKeywords (reporter : ReporterProfile) (content : ContentProfile)
  : list string :=
  let reporterKeywords := extractKeywords (r_company reporter) in
  let contentKeywords := extractKeywords (c_title content ++ " " ++ c_summary content) in
  filter (fun keyword =>
            existsb (fun contentKeyword =>
                       includes (toLowerCase contentKeyword) (toLowerCase keyword))
                    contentKeywords)
         reporterKeywords.

Definition baseScore (commonKeywords_length : nat) : Q :=
  Math_min 90 (inject_Z (Z.of_nat commonKeywords_length) * 15 + 60).

(** [Math.round(score * 10) / 10]. *)
Definition round1 (score : Q) : Q := inject_Z (Math_round (score * 10)) / 10.

(** The [try] block of [calculateMatchingScore]; like that of
    [generateTags] it cannot throw on values of the declared types. *)
Definition calculateMatchingScore (reporter : ReporterProfile) (content : ContentProfile)
  : Rand MatchingScoreResult :=
  fun n =>
    let commonKeywords := commonKeywords reporter content in
    let baseScore := baseScore (List.length commonKeywords) in
    let '(u, n') := Math_random n in
    let score := baseScore + u * 10 in
    let reasons := (firstn 3 commonKeywords ++ ["記者の専門性"; "関連性の高さ"])%list in
    ({| reporterId := r_id reporter;
        contentId := c_id content;
        score := round1 score;
        reasons := reasons |}, n').

(** The value returned by the [catch] block of [calculateMatchingScore]. *)
Definition calculateMatchingScore_catch (reporter : ReporterProfile)
  (content : ContentProfile) : MatchingScoreResult :=
  {| reporterId := r_id reporter;
     contentId := c_id content;
     score := 0;
     reasons := ["計算エラー"] |}.

(** *** generateRecommendation *)

Definition generateSubject (content : ContentProfile) (reporter : ReporterProfile)
  (score : Q) : string :=
  let urgency := if gt_num score 85 then "【緊急】" else "【取材ご提案】" in
  let company := if includes (r_company reporter) "新聞" then "新聞" else "メディア" in
  urgency ++ company ++ "様向け - " ++ c_title content ++ "について".

Definition generateBody (content : ContentProfile) (reporter : ReporterProfile)
  (score : Q) : string :=
  let honorific := if includes (r_company reporter) "新聞" then "様" else "さん" in
  let urgency := if gt_num score 85 then "ぜひ優先的に" else "" in
  r_name reporter ++ honorific ++ nl
  ++ nl
  ++ "いつもお世話になっております。" ++ nl
  ++ "リクルート広報担当です。" ++ nl
  ++ nl
  ++ c_summary content ++ nl
  ++ nl
  ++ r_company reporter ++ "でご活躍の" ++ r_name reporter ++ honorific
  ++ "の専門性に非常に適した内容と判断し、" ++ urgency
  ++ "取材をご提案させていただきます。" ++ nl
  ++ nl
  ++ "マッチングスコア: " ++ numberToString score ++ "点" ++ nl
  ++ nl
  ++ "詳細についてご説明の機会をいただければ幸いです。" ++ nl
  ++ "お忙しい中恐縮ですが、ご検討のほどよろしくお願いいたします。" ++ nl
  ++ nl
  ++ "リクルート広報チーム".

(** The [try] block of [generateRecommendation], for a defined [reporter]. *)
Definition generateRecommendation (reporter : ReporterProfile)
  (content : ContentProfile) (matchingScore : Q) : RecommendationDraft :=
  let tone := if gt_num matchingScore 85 then URGENT else FORMAL in
  let subject := generateSubject content reporter matchingScore in
  let body := generateBody content reporter matchingScore in
  {| subject := subject; body := body; tone := tone |}.

(** The value returned by the [catch] block of [generateRecommendation]. *)
Definition generateRecommendation_catch (content : ContentProfile)
  : RecommendationDraft :=
  {| subject := "【取材ご提案】" ++ c_title content;
     body := "レコメンド文章の生成に失敗しました。";
     tone := FORMAL |}.

(** *** processContent *)

(** The callback mapped over [highScoreReporters].  When [find] yields
    [undefined], the first statement of [generateRecommendation] reads
    [reporter.name] outside its [try] block and the promise rejects. *)
Definition recommend (content : ContentProfile) (reporters : list ReporterProfile)
  (result : MatchingScoreResult) : completion Recommendation :=
  match find (fun r => String.eqb (r_id r) (reporterId result)) reporters with
  | None => Throw TypeError
  | Some reporter =>
      let draft := generateRecommendation reporter content (score result) in
      Normal {| rec_reporterId := reporterId result; draft := draft |}
  end.

(** [processContent] rethrows what its [try] block throws. *)
Definition processContent (content : ContentProfile) (reporters : list ReporterProfile)
  : Rand (completion ProcessResult) :=
  fun n =>
    let tags := generateTags content in
    let '(matchingResults, n') :=
      map_rand (fun reporter => calculateMatchingScore reporter content) reporters n in
    let highScoreReporters :=
      filter (fun result => ge_num (score result) 75) matchingResults in
    match Promise_all (map (recommend content reporters) highScoreReporters) with
    | Throw e => (Throw e, n')
    | Normal recommendations =>
        (Normal {| tags := tags;
                   matchingResults := matchingResults;
                   recommendations := recommendations |}, n')
    end.

(** *** The exported helpers *)

Definition processContentWithAI (content : ContentProfile)
  (reporters : list ReporterProfile) : Rand (completion ProcessResult) :=
  processContent content reporters.

Definition generateTagsForContent (content : ContentProfile) : list TagSuggestion :=
  generateTags content.

Definition calculateReporterContentMatch (reporter : ReporterProfile)
  (content : ContentProfile) : Rand MatchingScoreResult :=
  calculateMatchingScore reporter content.

End Service.

(** ** The specification's reading of the shared keywords *)

Section Shared.

Variable toLowerCase : string -> string.

(** A catalog keyword is found in a text when the lowercased text contains
    the lowercased keyword. *)
Definition found_in (text keyword : string) : bool :=
  includes (toLowerCase text) (toLowerCase keyword).

(** The number of catalog keywords found in [company] that some catalog
    keyword found in [text] contains, case-insensitively, as a substring. *)
Definition shared_keyword_count (company text : string) : nat :=
  List.length
    (filter (fun keyword =>
               found_in company keyword
               && existsb (fun contentKeyword =>
                             found_in text contentKeyword
                             && includes (toLowerCase contentKeyword)
                                         (toLowerCase keyword))
                          keywords)
            keywords).

End Shared.

(** ** An instance of the built-ins *)

(** Lowercasing of one byte of Basic Latin. *)
Definition lower_byte (c : ascii) : ascii :=
  let n := nat_of_ascii c in
  if (65 <=? n)%nat && (n <=? 90)%nat then ascii_of_nat (n + 32) else c.

Fixpoint lower_ascii (s : string) : string :=
  match s with
  | EmptyString => EmptyString
  | String c s' => String (lower_byte c) (lower_ascii s')
  end.

Definition continuation_byte (c : ascii) : bool :=
  let n := nat_of_ascii c in (128 <=? n)%nat && (n <=? 191)%nat.

(** Text made of Basic Latin and of characters U+3000 to U+9FFF (kana and
    ideographs; in UTF-8 a lead byte E3 to E9 and two continuation bytes).
    The latter have no case, so [toLowerCase] only lowers the letters A to Z
    of such a text. *)
Fixpoint basic_text (s : string) : bool :=
  match s with
  | EmptyString => true
  | String c s' =>
      let n := nat_of_ascii c in
      if (n <? 128)%nat then basic_text s'
      else if (227 <=? n)%nat && (n <=? 233)%nat then
        match s' with
        | String c1 (String c2 s'') =>
            continuation_byte c1 && continuation_byte c2 && basic_text s''
        | _ => false
        end
      else false
  end.

(** What is assumed of [toLowerCase] where a claim evaluates it. *)
Definition lowers_basic_text (toLowerCase : string -> string) : Prop :=
  forall s, basic_text s = true -> toLowerCase s = lower_ascii s.

(** Decimal notation of a non-negative number with at most one decimal. *)
Definition show_tenths (q : Q) : string :=
  let t := Qfloor (q * 10) in
  let d := (t mod 10)%Z in
  NilEmpty.string_of_int (Z.to_int (t / 10))
  ++ (if (d =? 0)%Z then "" else "." ++ NilEmpty.string_of_int (Z.to_int d)).

(** A random source: 1/2, 1/3, 1/4, ... *)
Definition demo_rand (n : nat) : Q := 1 # Pos.of_nat (n + 2).

(** The end-to-end scenario of the specification. *)
Definition scenario_content (id status : string) : ContentProfile :=
  {| c_id := id; c_title := "Our AI DX project"; c_summary := ""; c_body := "";
     c_status := status |}.

Definition scenario_reporter (id name email : string) (socialMedia : option string)
  : ReporterProfile :=
  {| r_id := id; r_name := name; r_email := email;
     r_company := "Example Newspaper Co. AI desk"; r_socialMedia := socialMedia |}.

(** ** Numbers: rounding and the score formula *)

(** ** Binary64 arithmetic *)

(** The binade of a positive number [x]: the exponent [e] such that
    [2 ^ e <= x < 2 ^ (e + 1)]. *)
Definition binade (x : Q) : Z :=
  let e := (Z.log2 (Qnum x) - Z.log2 (Zpos (Qden x)))%Z in
  if Qle_bool (2 ^ e) x then e else (e - 1)%Z.

(** The nearest integer, a tie going to the even one. *)
Definition round_half_even (y : Q) : Z :=
  let f := Qfloor y in
  match Qcompare (y - inject_Z f) (1 # 2) with
  | Lt => f
  | Gt => (f + 1)%Z
  | Eq => if Z.even f then f else (f + 1)%Z
  end.

(** The exponent of the unit in the last place of the doubles around [x]:
    53 significant bits, and no exponent below that of the subnormals. *)
Definition ulp_exponent (x : Q) : Z := (Z.max (binade x) (-1022) - 52)%Z.

Definition round_positive (x : Q) : Q :=
  inject_Z (round_half_even (x / 2 ^ ulp_exponent x)) * 2 ^ ulp_exponent x.

(** The double nearest to [x], ties to even (no overflow below 2^1024). *)
Definition round64 (x : Q) : Q :=
  match Qcompare x 0 with
  | Eq => 0
  | Gt => round_positive x
  | Lt => - round_positive (- x)
  end.

(** [x] is a double (of a magnitude below 2^1024). *)
Definition is_double (x : Q) : Prop := round64 x == x.

(** [x * y], [x + y] and [x / y] on doubles. *)
Definition fmul (x y : Q) : Q := round64 (x * y).
Definition fadd (x y : Q) : Q := round64 (x + y).
Definition fdiv (x y : Q) : Q := round64 (x / y).

(** [Math.min(90, commonKeywords.length * 15 + 60)] on doubles. *)
Definition baseScore64 (commonKeywords_length : nat) : Q :=
  Math_min 90 (fadd (fmul (inject_Z (Z.of_nat commonKeywords_length)) 15) 60).

(** [Math.round(score * 10) / 10] on doubles; [Math.round] is exact. *)
Definition round1_64 (score : Q) : Q :=
  fdiv (inject_Z (Math_round (fmul score 10))) 10.

(** The [try] block of [calculateMatchingScore] on doubles. *)
Definition calculateMatchingScore64 (toLowerCase : string -> string) (rand : nat -> Q)
  (reporter : ReporterProfile) (content : ContentProfile) : Rand MatchingScoreResult :=
  fun n =>
    let commonKeywords := commonKeywords toLowerCase reporter content in
    let baseScore := baseScore64 (List.length commonKeywords) in
    let '(u, n') := Math_random rand n in
    let score := fadd baseScore (fmul u 10) in
    let reasons := (firstn 3 commonKeywords ++ ["記者の専門性"; "関連性の高さ"])%list in
    ({| reporterId := r_id reporter;
        contentId := c_id content;
        score := round1_64 score;
        reasons := reasons |}, n').

(** The value of a finite float of the Standard Library's specification of
    IEEE 754, and the double [m * 2 ^ e] in that specification. *)
Definition SF2Q (f : spec_float) : Q :=
  match f with
  | S754_finite s m e =>
      (if s then - inject_Z (Zpos m) else inject_Z (Zpos m)) * 2 ^ e
  | _ => 0
  end.

Definition binary64 (m e : Z) : spec_float := binary_normalize 53 1024 m e false.

(** A draw on which the two readings of the score differ. *)
Definition sample_draw : Q := 405323966463343 # 9007199254740992.

(** A reporter that shares no keyword with the scenario's content. *)
Definition other_reporter : ReporterProfile :=
  {| r_id := "r9"; r_name := "Abe"; r_email := "abe@example.com";
     r_company := "Gardening Monthly"; r_socialMedia := None |}.

(** [lra] after turning a division by ten into a product by one tenth. *)
Ltac lra10 := unfold Qdiv in *; change (/ 10) with (1 # 10) in *; lra.

Lemma gt_num_spec (x y : Q) : gt_num x y = true <-> y < x.
Proof.
  unfold gt_num. rewrite negb_true_iff.
  destruct (Qle_bool x y) eqn:E.
  - apply Qle_bool_iff in E. split; [discriminate | intros H; lra].
  - split; [intros _ | reflexivity].
    destruct (Qlt_le_dec y x) as [H | H]; [exact H |].
    apply Qle_bool_iff in H. congruence.
Qed.

Lemma ge_num_spec (x y : Q) : ge_num x y = true <-> y <= x.
Proof. unfold ge_num. apply Qle_bool_iff. Qed.

Lemma Math_round_lower (x : Q) : x - (1 # 2) < inject_Z (Math_round x).
Proof.
  unfold Math_round.
  pose proof (Qlt_floor (x + (1 # 2))) as H.
  rewrite inject_Z_plus in H. change (inject_Z 1) with 1 in H. lra.
Qed.

Lemma Math_round_upper (x : Q) : inject_Z (Math_round x) <= x + (1 # 2).
Proof. unfold Math_round. apply Qfloor_le. Qed.

(** An integer below [x] is below [Math.round(x)], and likewise above. *)
Lemma Math_round_ge (z : Z) (x : Q) : inject_Z z <= x -> (z <= Math_round x)%Z.
Proof.
  intros H. pose proof (Math_round_lower x) as L.
  assert (inject_Z z < inject_Z (Math_round x + 1)) as K.
  { rewrite inject_Z_plus. change (inject_Z 1) with 1. lra. }
  rewrite <- Zlt_Qlt in K. lia.
Qed.

Lemma Math_round_le (z : Z) (x : Q) : x <= inject_Z z -> (Math_round x <= z)%Z.
Proof.
  intros H. pose proof (Math_round_upper x) as U.
  assert (inject_Z (Math_round x) < inject_Z (z + 1)) as K.
  { rewrite inject_Z_plus. change (inject_Z 1) with 1. lra. }
  rewrite <- Zlt_Qlt in K. lia.
Qed.

(** A multiple [a] of one tenth below [x] is below [round1 x], and
    likewise above. *)
Lemma round1_ge (z : Z) (a x : Q) :
  a == inject_Z z / 10 -> a <= x -> a <= round1 x.
Proof.
  intros E H. rewrite E in *. unfold round1.
  assert ((z <= Math_round (x * 10))%Z) as K by (apply Math_round_ge; lra10).
  rewrite Zle_Qle in K. lra10.
Qed.

Lemma round1_le (z : Z) (a x : Q) :
  a == inject_Z z / 10 -> x <= a -> round1 x <= a.
Proof.
  intros E H. rewrite E in *. unfold round1.
  assert ((Math_round (x * 10) <= z)%Z) as K by (apply Math_round_le; lra10).
  rewrite Zle_Qle in K. lra10.
Qed.

Lemma baseScore_bounds (n : nat) : 60 <= baseScore n <= 90.
Proof.
  unfold baseScore, Math_min.
  assert (0 <= inject_Z (Z.of_nat n)) as H.
  { change 0 with (inject_Z 0). rewrite <- Zle_Qle. lia. }
  split.
  - apply Q.min_glb; lra.
  - apply Q.le_min_l.
Qed.

(** ** Strings: [includes] is the substring test *)

Lemma prefix_append (t s : string) :
  prefix t s = true <-> exists b, s = t ++ b.
Proof.
  revert s. induction t as [| c t IH]; intros s.
  - split; [intros _; exists s; reflexivity | intros _; destruct s; reflexivity].
  - destruct s as [| d s]; cbn [prefix append].
    + split; [discriminate | intros [b E]; discriminate].
    + destruct (Ascii.ascii_dec c d) as [-> | N].
      * rewrite IH. split; intros [b E]; exists b; congruence.
      * split; [discriminate | intros [b E]; congruence].
Qed.

Lemma includes_substring (s search : string) :
  includes s search = true <-> exists a b, s = a ++ search ++ b.
Proof.
  induction s as [| c s IH]; cbn [includes].
  - destruct (prefix search "") eqn:P.
    + apply prefix_append in P. destruct P as [b E].
      split; [intros _; exists "", b; exact E | reflexivity].
    + split; [discriminate |]. intros [a [b E]].
      destruct a; [| discriminate]. cbn [append] in E.
      assert (prefix search "" = true) by (apply prefix_append; exists b; exact E).
      congruence.
  - destruct (prefix search (String c s)) eqn:P.
    + apply prefix_append in P. destruct P as [b E].
      split; [intros _; exists "", b; exact E | reflexivity].
    + rewrite IH. split.
      * intros [a [b E]]. exists (String c a), b. cbn [append]. congruence.
      * intros [a [b E]]. destruct a as [| d a].
        -- cbn [append] in E.
           assert (prefix search (String c s) = true)
             by (apply prefix_append; exists b; exact E).
           congruence.
        -- cbn [append] in E. exists a, b. congruence.
Qed.

(** ** Lists *)

Lemma filter_twice {A} (f g : A -> bool) (l : list A) :
  filter f (filter g l) = filter (fun x => g x && f x) l.
Proof.
  induction l as [| a l IH]; [reflexivity |].
  cbn [filter]. destruct (g a); cbn [filter andb]; rewrite IH; reflexivity.
Qed.

Lemma existsb_of_filter {A} (f g : A -> bool) (l : list A) :
  existsb f (filter g l) = existsb (fun x => g x && f x) l.
Proof.
  induction l as [| a l IH]; [reflexivity |].
  cbn [filter existsb]. destruct (g a); cbn [existsb andb]; rewrite IH; reflexivity.
Qed.

Lemma Forall2_In_right {A B} (R : A -> B -> Prop) (l1 : list A) (l2 : list B) (y : B) :
  Forall2 R l1 l2 -> In y l2 -> exists x, In x l1 /\ R x y.
Proof.
  induction 1 as [| x y' l1 l2 HR _ IH]; intros Hin; [destruct Hin |].
  destruct Hin as [-> | Hin].
  - exists x. split; [left; reflexivity | exact HR].
  - destruct (IH Hin) as [x' [Hx HR']]. exists x'. split; [right |]; assumption.
Qed.

Lemma existsb_ext_in {A} (f g : A -> bool) (l : list A) :
  (forall x, In x l -> f x = g x) -> existsb f l = existsb g l.
Proof.
  induction l as [| a l IH]; intros H; [reflexivity |].
  cbn [existsb]. rewrite (H a (or_introl eq_refl)), IH; [reflexivity |].
  intros x Hx. apply H. right. exact Hx.
Qed.

Lemma filter_none {A} (f : A -> bool) (l : list A) :
  (forall x, In x l -> f x = false) -> filter f l = [].
Proof.
  induction l as [| a l IH]; intros H; [reflexivity |].
  cbn [filter]. rewrite (H a (or_introl eq_refl)). apply IH.
  intros x Hx. apply H. right. exact Hx.
Qed.

(** ** generateTags *)

Section TagProperties.

Variable toLowerCase : string -> string.


(** C6: a content whose lowercased concatenated text contains none of "ai",
    "dx", "リクルート", "it" and "システム" gets no tag. *)
Theorem generateTags_no_rule_fires (content : ContentProfile) :
  includes (contentText toLowerCase content) "ai" = false ->
  includes (contentText toLowerCase content) "dx" = false ->
  includes (contentText toLowerCase content) "リクルート" = false ->
  includes (contentText toLowerCase content) "it" = false ->
  includes (contentText toLowerCase content) "システム" = false ->
  generateTags toLowerCase content = [].
Proof.
  intros Hai Hdx Hre Hit Hsy.
  assert (forall tag, relevantTag toLowerCase content tag = false) as F.
  { intros tag. unfold relevantTag. cbv zeta.
    rewrite Hai, Hdx, Hre, Hit, Hsy.
    rewrite !andb_false_r. reflexivity. }
  unfold generateTags, mockTags. simpl filter.
  rewrite !F. reflexivity.
Qed.

End TagProperties.


Lemma generateTags_no_rule_fires_witness :
  generateTags lower_ascii
    {| c_id := "c2"; c_title := "Annual Report"; c_summary := "FY2024 results";
       c_body := "Revenue was flat."; c_status := "DRAFT" |} = [].
Proof.
  apply (generateTags_no_rule_fires lower_ascii); reflexivity.
Defined.

(** ** generateRecommendation *)

(** C3: the tone is URGENT exactly when the matching score exceeds 85 and
    FORMAL otherwise, 85 itself being FORMAL and 85.01 URGENT; neither the
    [try] block nor the [catch] block ever yields CASUAL. *)
Theorem generateRecommendation_tone (numberToString : Q -> string)
  (reporter : ReporterProfile) (content : ContentProfile) (matchingScore : Q) :
  let draft := generateRecommendation numberToString reporter content matchingScore in
  (tone draft = URGENT <-> matchingScore > 85)
  /\ (~ matchingScore > 85 -> tone draft = FORMAL)
  /\ tone draft <> CASUAL
  /\ tone (generateRecommendation_catch content) = FORMAL
  /\ tone (generateRecommendation numberToString reporter content 85.0) = FORMAL
  /\ tone (generateRecommendation numberToString reporter content 85.01) = URGENT.
Proof.
  cbv zeta. unfold generateRecommendation. cbn [tone].
  pose proof (gt_num_spec matchingScore 85) as G.
  destruct (gt_num matchingScore 85).
  - repeat split; try reflexivity; try discriminate.
    + intros _. apply G. reflexivity.
    + intros N. exfalso. apply N, G. reflexivity.
  - repeat split; try reflexivity; try discriminate.
    intros L. apply G in L. discriminate.
Qed.

(** ** calculateMatchingScore *)

Section ScoreProperties.

Variable toLowerCase : string -> string.
Variable rand : nat -> Q.

(** The score formula on any number of shared keywords and any draw. *)
Lemma score_formula_bounds (k : nat) (u : Q) :
  0 <= u < 1 ->
  60 <= round1 (baseScore k + u * 10) <= 100.
Proof.
  intros [U0 U1]. destruct (baseScore_bounds k) as [B0 B1]. split.
  - apply (round1_ge 600); [reflexivity | lra].
  - apply (round1_le 1000); [reflexivity | lra].
Qed.

Lemma calculateMatchingScore_score (reporter : ReporterProfile)
  (content : ContentProfile) (n : nat) :
  score (fst (calculateMatchingScore toLowerCase rand reporter content n))
  = round1 (baseScore (List.length (commonKeywords toLowerCase reporter content))
            + rand n * 10).
Proof. reflexivity. Qed.

(** C1: the score of a matching result lies within [0,100], whether the
    result comes from the [try] block (whatever the number of shared
    keywords) or from the [catch] block. *)
Theorem score_within_0_100 (reporter : ReporterProfile) (content : ContentProfile)
  (n : nat) :
  0 <= rand n < 1 ->
  0 <= score (fst (calculateMatchingScore toLowerCase rand reporter content n)) <= 100
  /\ 0 <= score (calculateMatchingScore_catch reporter content) <= 100
  /\ forall k : nat, 0 <= round1 (baseScore k + rand n * 10) <= 100.
Proof.
  intros U. split; [| split].
  - rewrite calculateMatchingScore_score.
    pose proof (score_formula_bounds
                  (List.length (commonKeywords toLowerCase reporter content)) _ U).
    lra.
  - cbn [score calculateMatchingScore_catch]. lra.
  - intros k. pose proof (score_formula_bounds k _ U). lra.
Qed.

(** C10: the [try] block never yields a score below 60: the base score of
    zero shared keywords is 60 and the random term is not negative; the
    [catch] block yields 0. *)
Theorem score_at_least_60 (reporter : ReporterProfile) (content : ContentProfile)
  (n : nat) :
  0 <= rand n < 1 ->
  60 <= score (fst (calculateMatchingScore toLowerCase rand reporter content n))
  /\ baseScore 0 == 60
  /\ 0 <= rand n * 10
  /\ score (calculateMatchingScore_catch reporter content) = 0.
Proof.
  intros U. split; [| split; [| split]].
  - rewrite calculateMatchingScore_score. apply score_formula_bounds, U.
  - reflexivity.
  - lra.
  - reflexivity.
Qed.

(** C7: the reasons of the [try] block are the first three shared keywords
    (all of them when there are fewer) followed by the two fixed phrases,
    those of the [catch] block the single entry '計算エラー'; either way at
    most five entries. *)
Theorem reasons_at_most_5 (reporter : ReporterProfile) (content : ContentProfile)
  (n : nat) :
  let result := fst (calculateMatchingScore toLowerCase rand reporter content n) in
  let common := commonKeywords toLowerCase reporter content in
  reasons result = (firstn 3 common ++ ["記者の専門性"; "関連性の高さ"])%list
  /\ (List.length common <= 3 ->
      reasons result = (common ++ ["記者の専門性"; "関連性の高さ"])%list)%nat
  /\ (List.length (reasons result) <= 5)%nat
  /\ reasons (calculateMatchingScore_catch reporter content) = ["計算エラー"]
  /\ (List.length (reasons (calculateMatchingScore_catch reporter content)) <= 5)%nat.
Proof.
  cbv zeta. cbn [fst calculateMatchingScore Math_random reasons calculateMatchingScore_catch].
  split; [reflexivity |]. split; [| split; [| split]].
  - intros L. rewrite firstn_all2 by exact L. reflexivity.
  - rewrite length_app.
    pose proof (firstn_le_length 3 (commonKeywords toLowerCase reporter content)).
    cbn [List.length]. lia.
  - reflexivity.
  - cbn [List.length]. lia.
Qed.

(** The shared keywords as one pass over the catalog. *)
Lemma commonKeywords_catalog (reporter : ReporterProfile) (content : ContentProfile) :
  commonKeywords toLowerCase reporter content
  = filter (fun keyword =>
              found_in toLowerCase (r_company reporter) keyword
              && existsb (fun contentKeyword =>
                            found_in toLowerCase
                                     (c_title content ++ " " ++ c_summary content)
                                     contentKeyword
                            && includes (toLowerCase contentKeyword)
                                        (toLowerCase keyword))
                         keywords)
           keywords.
Proof.
  unfold commonKeywords, extractKeywords, found_in.
  rewrite filter_twice. apply filter_ext. intros keyword.
  rewrite existsb_of_filter. reflexivity.
Qed.

End ScoreProperties.

Lemma score_within_0_100_witness :
  0 <= score (fst (calculateMatchingScore lower_ascii demo_rand
                     (scenario_reporter "r1" "Sato" "sato@example.com" None)
                     (scenario_content "c1" "PUBLISHED") 0%nat)) <= 100.
Proof.
  apply (score_within_0_100 lower_ascii demo_rand
           (scenario_reporter "r1" "Sato" "sato@example.com" None)
           (scenario_content "c1" "PUBLISHED") 0%nat).
  vm_compute. split; [discriminate | reflexivity].
Defined.

Lemma score_at_least_60_witness :
  60 <= score (fst (calculateMatchingScore lower_ascii demo_rand
                      (scenario_reporter "r1" "Sato" "sato@example.com" None)
                      (scenario_content "c1" "PUBLISHED") 0%nat)).
Proof.
  apply (score_at_least_60 lower_ascii demo_rand
           (scenario_reporter "r1" "Sato" "sato@example.com" None)
           (scenario_content "c1" "PUBLISHED") 0%nat).
  vm_compute. split; [discriminate | reflexivity].
Defined.

(** ** processContent *)

Lemma Promise_all_map {A B} (f : A -> completion B) (l : list A) :
  (forall x, In x l -> exists y, f x = Normal y) ->
  exists ys, Promise_all (map f l) = Normal ys
             /\ Forall2 (fun x y => f x = Normal y) l ys.
Proof.
  induction l as [| a l IH]; intros H.
  - exists []. split; [reflexivity | constructor].
  - destruct (H a (or_introl eq_refl)) as [y Hy].
    destruct IH as [ys [P F]]; [intros x Hx; apply H; right; exact Hx |].
    exists (y :: ys). cbn [map Promise_all]. rewrite Hy, P.
    split; [reflexivity | constructor; assumption].
Qed.

Lemma find_by_id (reporters : list ReporterProfile) (reporter : ReporterProfile) :
  In reporter reporters ->
  exists found,
    find (fun r => String.eqb (r_id r) (r_id reporter)) reporters = Some found
    /\ r_id found = r_id reporter.
Proof.
  intros H.
  destruct (find (fun r => String.eqb (r_id r) (r_id reporter)) reporters)
    as [found |] eqn:E.
  - exists found. split; [reflexivity |].
    apply find_some in E. apply String.eqb_eq, E.
  - apply (find_none _ _ E) in H. rewrite String.eqb_refl in H. discriminate.
Qed.

Section ProcessProperties.

Variable toLowerCase : string -> string.
Variable numberToString : Q -> string.
Variable rand : nat -> Q.

(** The matching results: the [i]-th reporter is scored with the draw
    number [n + i]. *)
Lemma map_rand_calculateMatchingScore (content : ContentProfile)
  (reporters : list ReporterProfile) (n : nat) :
  map_rand (fun reporter => calculateMatchingScore toLowerCase rand reporter content)
           reporters n
  = (map (fun p => fst (calculateMatchingScore toLowerCase rand (snd p) content (fst p)))
         (combine (seq n (List.length reporters)) reporters),
     (n + List.length reporters)%nat).
Proof.
  revert n. induction reporters as [| r rs IH]; intros n.
  - cbn. rewrite Nat.add_0_r. reflexivity.
  - cbn [map_rand]. cbn [calculateMatchingScore Math_random].
    rewrite IH. cbn [List.length seq combine map fst snd calculateMatchingScore Math_random].
    rewrite Nat.add_succ_r. reflexivity.
Qed.

Lemma scored_in_order {P : ReporterProfile -> MatchingScoreResult -> Prop}
  (g : ReporterProfile -> nat -> MatchingScoreResult)
  (reporters : list ReporterProfile) (n : nat) :
  (forall r i, P r (g r i)) ->
  Forall2 P reporters
          (map (fun p => g (snd p) (fst p))
               (combine (seq n (List.length reporters)) reporters)).
Proof.
  intros H. revert n. induction reporters as [| r rs IH]; intros n.
  - constructor.
  - cbn. constructor; [apply H | apply IH].
Qed.

(** [processContent] always returns: every match result carries the id of
    one of the reporters, so that [find] succeeds on it. *)
Lemma processContent_returns (content : ContentProfile)
  (reporters : list ReporterProfile) (n : nat) :
  exists results recs,
    processContent toLowerCase numberToString rand content reporters n
    = (Normal {| tags := generateTags toLowerCase content;
                 matchingResults := results;
                 recommendations := recs |},
       (n + List.length reporters)%nat)
    /\ Forall2 (fun reporter result =>
                  exists i, result
                            = fst (calculateMatchingScore toLowerCase rand
                                     reporter content i))
               reporters results
    /\ Forall2 (fun result rec =>
                  recommend numberToString content reporters result = Normal rec)
               (filter (fun result => ge_num (score result) 75) results) recs.
Proof.
  unfold processContent. rewrite map_rand_calculateMatchingScore.
  set (results := map _ (combine _ reporters)).
  assert (Forall2 (fun reporter result =>
                     exists i, result
                               = fst (calculateMatchingScore toLowerCase rand
                                        reporter content i))
                  reporters results) as F.
  { apply (scored_in_order
             (fun r i => fst (calculateMatchingScore toLowerCase rand r content i))).
    intros r i. exists i. reflexivity. }
  destruct (Promise_all_map (recommend numberToString content reporters)
              (filter (fun result => ge_num (score result) 75) results))
    as [recs [P R]].
  { intros result Hin. apply filter_In in Hin. destruct Hin as [Hin _].
    destruct (Forall2_In_right _ _ _ _ F Hin) as [reporter [Hr [i Hi]]].
    destruct (find_by_id reporters reporter Hr) as [found [Hf _]].
    unfold recommend. subst result.
    cbn [reporterId fst calculateMatchingScore Math_random].
    rewrite Hf. eexists. reflexivity. }
  exists results, recs. rewrite P. split; [reflexivity |]. split; assumption.
Qed.

(** C8: without reporters there are no match results and no
    recommendations, and the tags are those of [generateTags]; which they
    are for every list of reporters. *)
Theorem processContent_no_reporters (content : ContentProfile) (n : nat) :
  processContent toLowerCase numberToString rand content [] n
  = (Normal {| tags := generateTags toLowerCase content;
               matchingResults := [];
               recommendations := [] |}, n)
  /\ forall (reporters : list ReporterProfile) (n' : nat),
       exists res,
         fst (processContent toLowerCase numberToString rand content reporters n')
         = Normal res
         /\ tags res = generateTags toLowerCase content.
Proof.
  split; [reflexivity |].
  intros reporters n'.
  destruct (processContent_returns content reporters n') as [results [recs [E _]]].
  rewrite E. eexists. split; reflexivity.
Qed.

(** C9, amended: [processContent] returns one match result per reporter, in
    order (hence a non-empty array when there is a reporter), and one
    recommendation per match result of score at least 75, in order, drafted
    for a reporter of that id; so that the recommendations are empty when no
    match result reaches 75. *)
Theorem recommendations_for_high_scores (content : ContentProfile)
  (reporters : list ReporterProfile) (n : nat) :
  exists res,
    fst (processContent toLowerCase numberToString rand content reporters n)
    = Normal res
    /\ Forall2 (fun reporter result =>
                  reporterId result = r_id reporter
                  /\ contentId result = c_id content)
               reporters (matchingResults res)
    /\ (reporters <> [] -> matchingResults res <> [])
    /\ Forall2 (fun result rec =>
                  rec_reporterId rec = reporterId result
                  /\ exists reporter,
                       In reporter reporters
                       /\ r_id reporter = reporterId result
                       /\ draft rec
                          = generateRecommendation numberToString reporter content
                                                   (score result))
               (filter (fun result => ge_num (score result) 75) (matchingResults res))
               (recommendations res)
    /\ ((forall result, In result (matchingResults res) -> ~ 75 <= score result) ->
        recommendations res = []).
Proof.
  destruct (processContent_returns content reporters n) as [results [recs [E [F R]]]].
  rewrite E. eexists. split; [reflexivity |]. cbn [fst matchingResults recommendations].
  assert (Forall2 (fun reporter result =>
                     reporterId result = r_id reporter
                     /\ contentId result = c_id content) reporters results) as F'.
  { eapply Forall2_impl; [| exact F].
    intros reporter result [i ->]. split; reflexivity. }
  split; [exact F' |]. split; [| split].
  - intros N ->. inversion F'. subst. apply N. reflexivity.
  - eapply Forall2_impl; [| exact R].
    intros result rec. unfold recommend.
    destruct (find _ reporters) as [found |] eqn:Hf; [| discriminate].
    intros [= <-]. split; [reflexivity |].
    exists found. apply find_some in Hf. destruct Hf as [Hin Hid].
    apply String.eqb_eq in Hid. repeat split; assumption.
  - intros Low.
    assert (filter (fun result => ge_num (score result) 75) results = []) as Z.
    { apply filter_none. intros result Hin.
      destruct (ge_num (score result) 75) eqn:G; [| reflexivity].
      apply ge_num_spec in G. destruct (Low result Hin G). }
    rewrite Z in R. inversion R. reflexivity.
Qed.

End ProcessProperties.

(** C9 as stated fails without reporters: no match result reaches 75, yet
    the match results are empty. *)
Lemma processContent_no_reporters_counterexample :
  exists res,
    fst (processContent lower_ascii show_tenths demo_rand
           (scenario_content "c1" "PUBLISHED") [] 0%nat) = Normal res
    /\ (forall result, In result (matchingResults res) -> ~ 75 <= score result)
    /\ recommendations res = []
    /\ ~ matchingResults res <> [].
Proof.
  eexists. split; [reflexivity |]. cbn [matchingResults recommendations].
  split; [intros result [] |]. split; [reflexivity |].
  intros N. apply N. reflexivity.
Qed.

(** ** The end-to-end scenario *)

Example scenario_reporterKeywords :
  extractKeywords lower_ascii "Example Newspaper Co. AI desk" = ["AI"].
Proof. reflexivity. Qed.

Example scenario_contentKeywords :
  extractKeywords lower_ascii "Our AI DX project " = ["AI"; "DX"].
Proof. reflexivity. Qed.

Example scenario_tags :
  map name (generateTags lower_ascii (scenario_content "c1" "PUBLISHED"))
  = ["AI・機械学習"; "DX・デジタル変革"].
Proof. reflexivity. Qed.

Example scenario_score :
  score (fst (calculateMatchingScore lower_ascii demo_rand
                (scenario_reporter "r1" "Sato" "sato@example.com" None)
                (scenario_content "c1" "PUBLISHED") 0%nat)) == 80.
Proof. reflexivity. Qed.

Lemma keywords_basic (keyword : string) : In keyword keywords -> basic_text keyword = true.
Proof.
  intros H.
  assert (forallb basic_text keywords = true) as F by reflexivity.
  rewrite forallb_forall in F. apply F, H.
Qed.

(** On basic text the shared keywords are those computed with [lower_ascii]. *)
Lemma commonKeywords_basic (toLowerCase : string -> string)
  (reporter : ReporterProfile) (content : ContentProfile) :
  lowers_basic_text toLowerCase ->
  basic_text (r_company reporter) = true ->
  basic_text (c_title content ++ " " ++ c_summary content) = true ->
  commonKeywords toLowerCase reporter content
  = commonKeywords lower_ascii reporter content.
Proof.
  intros L Hc Ht. rewrite !commonKeywords_catalog. unfold found_in.
  apply filter_ext_in. intros keyword Hk.
  rewrite (L _ Hc), (L _ (keywords_basic _ Hk)). f_equal.
  apply existsb_ext_in. intros contentKeyword Hck.
  rewrite (L _ Ht), (L _ (keywords_basic _ Hck)). reflexivity.
Qed.

(** C4: in the scenario one keyword, AI, is shared, the base score is 75,
    the rounded score is at least 75 whatever the random draw, and
    [processContent] drafts a recommendation for the reporter. *)
Theorem scenario_recommendation (toLowerCase : string -> string)
  (numberToString : Q -> string) (rand : nat -> Q)
  (cid status rid rname remail : string) (rsocial : option string) (n : nat) :
  lowers_basic_text toLowerCase ->
  0 <= rand n < 1 ->
  let content := scenario_content cid status in
  let reporter := scenario_reporter rid rname remail rsocial in
  let k := List.length (commonKeywords toLowerCase reporter content) in
  (1 <= k)%nat
  /\ 75 <= baseScore k
  /\ 0 <= rand n * 10 < 10
  /\ exists result,
       75 <= score result
       /\ fst (processContent toLowerCase numberToString rand content [reporter] n)
          = Normal
              {| tags := generateTags toLowerCase content;
                 matchingResults := [result];
                 recommendations :=
                   [ {| rec_reporterId := rid;
                        draft := generateRecommendation numberToString reporter
                                   content (score result) |} ] |}.
Proof.
  intros L [U0 U1]. cbv zeta.
  assert (commonKeywords toLowerCase (scenario_reporter rid rname remail rsocial)
            (scenario_content cid status) = ["AI"]) as K.
  { rewrite (commonKeywords_basic _ _ _ L); reflexivity. }
  rewrite K. cbn [List.length].
  assert (baseScore 1 = 75) as B by reflexivity.
  split; [lia |]. split; [rewrite B; lra |]. split; [lra |].
  assert (75 <= round1 (baseScore 1 + rand n * 10)) as S75.
  { apply (round1_ge 750); [reflexivity | rewrite B; lra]. }
  exists (fst (calculateMatchingScore toLowerCase rand
                 (scenario_reporter rid rname remail rsocial)
                 (scenario_content cid status) n)).
  rewrite calculateMatchingScore_score, K. cbn [List.length].
  split; [exact S75 |].
  unfold processContent. rewrite map_rand_calculateMatchingScore.
  cbn [List.length seq combine map fst snd filter].
  rewrite calculateMatchingScore_score, K. cbn [List.length].
  rewrite (proj2 (ge_num_spec _ _) S75).
  cbn [map]. unfold recommend at 1.
  cbn [find fst calculateMatchingScore Math_random reporterId scenario_reporter r_id].
  rewrite String.eqb_refl. cbn [Promise_all score]. rewrite K. reflexivity.
Qed.

Lemma scenario_recommendation_witness :
  exists result,
    75 <= score result
    /\ fst (processContent lower_ascii show_tenths demo_rand
              (scenario_content "c1" "PUBLISHED")
              [scenario_reporter "r1" "Sato" "sato@example.com" None] 0%nat)
       = Normal
           {| tags := generateTags lower_ascii (scenario_content "c1" "PUBLISHED");
              matchingResults := [result];
              recommendations :=
                [ {| rec_reporterId := "r1";
                     draft := generateRecommendation show_tenths
                                (scenario_reporter "r1" "Sato" "sato@example.com" None)
                                (scenario_content "c1" "PUBLISHED") (score result) |} ] |}.
Proof.
  apply (scenario_recommendation lower_ascii show_tenths demo_rand
           "c1" "PUBLISHED" "r1" "Sato" "sato@example.com" None 0%nat).
  - intros s _. reflexivity.
  - vm_compute. split; [discriminate | reflexivity].
Defined.

(** * Further properties of the service *)

(** ** generateTags: one rule per catalog tag *)

(** X1: the suggested tags are, in catalog order, the AI tag when the
    lowercased text contains "ai", the IT tag when it contains "it" or
    "システム", the DX tag when it contains "dx" and the company tag when it
    contains "リクルート"; no rule affects another tag. *)
Theorem generateTags_by_rule (toLowerCase : string -> string) (content : ContentProfile) :
  let text := contentText toLowerCase content in
  generateTags toLowerCase content
  = ((if includes text "ai"
      then [ {| name := "AI・機械学習"; category := TECHNOLOGY; confidence := 0.95 |} ]
      else [])
     ++ (if includes text "it" || includes text "システム"
         then [ {| name := "IT業界"; category := INDUSTRY; confidence := 0.8 |} ]
         else [])
     ++ (if includes text "dx"
         then [ {| name := "DX・デジタル変革"; category := TECHNOLOGY; confidence := 0.85 |} ]
         else [])
     ++ (if includes text "リクルート"
         then [ {| name := "リクルート"; category := COMPANY; confidence := 0.9 |} ]
         else []))%list.
Proof.
  cbv zeta. unfold generateTags, mockTags. cbn [filter].
  unfold relevantTag. cbv zeta. cbn [name].
  destruct (includes (contentText toLowerCase content) "ai");
    destruct (includes (contentText toLowerCase content) "it");
    destruct (includes (contentText toLowerCase content) "システム");
    destruct (includes (contentText toLowerCase content) "dx");
    destruct (includes (contentText toLowerCase content) "リクルート");
    reflexivity.
Qed.

(** ** calculateMatchingScore: the score bands *)

Lemma baseScore_cases (k : nat) :
  (k = 0%nat -> baseScore k == 60)
  /\ (k = 1%nat -> baseScore k == 75)
  /\ ((2 <= k)%nat -> baseScore k == 90).
Proof.
  split; [| split].
  - intros ->. reflexivity.
  - intros ->. reflexivity.
  - intros H. unfold baseScore, Math_min. apply Q.min_l.
    assert (inject_Z 2 <= inject_Z (Z.of_nat k)) as K
      by (rewrite <- Zle_Qle; lia).
    change (inject_Z 2) with 2 in K. lra.
Qed.

Section ScoreBands.

Variable toLowerCase : string -> string.
Variable numberToString : Q -> string.
Variable rand : nat -> Q.

Lemma score_in_band (reporter : ReporterProfile) (content : ContentProfile) (n : nat) :
  0 <= rand n < 1 ->
  let k := List.length (commonKeywords toLowerCase reporter content) in
  let s := score (fst (calculateMatchingScore toLowerCase rand reporter content n)) in
  (k = 0%nat -> 60 <= s <= 70)
  /\ (k = 1%nat -> 75 <= s <= 85)
  /\ ((2 <= k)%nat -> 90 <= s <= 100).
Proof.
  intros [U0 U1]. cbv zeta. rewrite calculateMatchingScore_score.
  destruct (baseScore_cases
              (List.length (commonKeywords toLowerCase reporter content)))
    as [B0 [B1 B2]].
  split; [| split]; intros H.
  - specialize (B0 H). split.
    + apply (round1_ge 600); [reflexivity | lra].
    + apply (round1_le 700); [reflexivity | lra].
  - specialize (B1 H). split.
    + apply (round1_ge 750); [reflexivity | lra].
    + apply (round1_le 850); [reflexivity | lra].
  - specialize (B2 H). split.
    + apply (round1_ge 900); [reflexivity | lra].
    + apply (round1_le 1000); [reflexivity | lra].
Qed.

(** X2: the score falls in one of three bands that do not overlap: 60 to
    70 without a shared keyword, 75 to 85 with exactly one, 90 to 100 with
    two or more. *)
Theorem score_bands (reporter : ReporterProfile) (content : ContentProfile) (n : nat) :
  0 <= rand n < 1 ->
  let k := List.length (commonKeywords toLowerCase reporter content) in
  let s := score (fst (calculateMatchingScore toLowerCase rand reporter content n)) in
  (k = 0%nat -> 60 <= s <= 70)
  /\ (k = 1%nat -> 75 <= s <= 85)
  /\ ((2 <= k)%nat -> 90 <= s <= 100).
Proof. exact (score_in_band reporter content n). Qed.

(** X3: whatever the random draw, the score reaches the threshold of 75,
    above which [processContent] drafts a recommendation, exactly when the
    reporter and the content share a keyword. *)
Theorem threshold_iff_shared_keyword (reporter : ReporterProfile)
  (content : ContentProfile) (n : nat) :
  0 <= rand n < 1 ->
  ge_num (score (fst (calculateMatchingScore toLowerCase rand reporter content n))) 75
  = true
  <-> commonKeywords toLowerCase reporter content <> [].
Proof.
  intros U. destruct (score_in_band reporter content n U) as [S0 [S1 S2]].
  rewrite ge_num_spec.
  destruct (commonKeywords toLowerCase reporter content) as [| a [| b l]] eqn:E;
    cbn [List.length] in *.
  - specialize (S0 eq_refl). split; [intros H; lra | intros H; destruct (H eq_refl)].
  - specialize (S1 eq_refl). split; [discriminate | intros _; lra].
  - assert (2 <= S (S (List.length l)))%nat as K by lia.
    specialize (S2 K). split; [discriminate | intros _; lra].
Qed.

(** X4: whatever the random draw, the draft written for the computed
    score has tone URGENT exactly when at least two keywords are shared;
    one shared keyword never suffices. *)
Theorem urgent_iff_two_shared_keywords (reporter : ReporterProfile)
  (content : ContentProfile) (n : nat) :
  0 <= rand n < 1 ->
  tone (generateRecommendation numberToString reporter content
          (score (fst (calculateMatchingScore toLowerCase rand reporter content n))))
  = URGENT
  <-> (2 <= List.length (commonKeywords toLowerCase reporter content))%nat.
Proof.
  intros U. destruct (score_in_band reporter content n U) as [S0 [S1 S2]].
  unfold generateRecommendation. cbn [tone].
  set (s := score (fst (calculateMatchingScore toLowerCase rand reporter content n))) in *.
  pose proof (gt_num_spec s 85) as G.
  destruct (Nat.le_gt_cases 2 (List.length (commonKeywords toLowerCase reporter content)))
    as [K | K].
  - specialize (S2 K).
    assert (gt_num s 85 = true) as T by (apply G; lra).
    rewrite T. split; [intros _; exact K | reflexivity].
  - assert (s <= 85) as L.
    { destruct (List.length (commonKeywords toLowerCase reporter content))
        as [| [| k]]; [specialize (S0 eq_refl) | specialize (S1 eq_refl) | lia]; lra. }
    destruct (gt_num s 85) eqn:T.
    + assert (85 < s) by (apply G; reflexivity). lra.
    + split; [discriminate | lia].
Qed.

End ScoreBands.

Lemma score_bands_witness :
  75 <= score (fst (calculateMatchingScore lower_ascii demo_rand
                      (scenario_reporter "r1" "Sato" "sato@example.com" None)
                      (scenario_content "c1" "PUBLISHED") 0%nat)) <= 85.
Proof.
  apply (score_bands lower_ascii demo_rand
           (scenario_reporter "r1" "Sato" "sato@example.com" None)
           (scenario_content "c1" "PUBLISHED") 0%nat).
  - vm_compute. split; [discriminate | reflexivity].
  - reflexivity.
Defined.

Lemma threshold_iff_shared_keyword_witness :
  ge_num (score (fst (calculateMatchingScore lower_ascii demo_rand
                        (scenario_reporter "r1" "Sato" "sato@example.com" None)
                        (scenario_content "c1" "PUBLISHED") 0%nat))) 75
  = true.
Proof.
  apply (threshold_iff_shared_keyword lower_ascii demo_rand
           (scenario_reporter "r1" "Sato" "sato@example.com" None)
           (scenario_content "c1" "PUBLISHED") 0%nat).
  - vm_compute. split; [discriminate | reflexivity].
  - vm_compute. discriminate.
Defined.

Lemma urgent_iff_two_shared_keywords_witness :
  tone (generateRecommendation show_tenths
          {| r_id := "r2"; r_name := "Ito"; r_email := "ito@example.com";
             r_company := "AI and DX Weekly"; r_socialMedia := None |}
          (scenario_content "c1" "PUBLISHED")
          (score (fst (calculateMatchingScore lower_ascii demo_rand
                         {| r_id := "r2"; r_name := "Ito"; r_email := "ito@example.com";
                            r_company := "AI and DX Weekly"; r_socialMedia := None |}
                         (scenario_content "c1" "PUBLISHED") 0%nat))))
  = URGENT.
Proof.
  apply (urgent_iff_two_shared_keywords lower_ascii show_tenths demo_rand
           {| r_id := "r2"; r_name := "Ito"; r_email := "ito@example.com";
              r_company := "AI and DX Weekly"; r_socialMedia := None |}
           (scenario_content "c1" "PUBLISHED") 0%nat).
  - vm_compute. split; [discriminate | reflexivity].
  - vm_compute. lia.
Defined.

(** ** calculateMatchingScore: the shared keywords are an intersection *)

Lemma keywords_not_nested (keyword contentKeyword : string) :
  In keyword keywords -> In contentKeyword keywords ->
  includes (lower_ascii contentKeyword) (lower_ascii keyword)
  = String.eqb contentKeyword keyword.
Proof.
  intros Hk Hc.
  assert (forallb (fun k =>
            forallb (fun c => Bool.eqb (includes (lower_ascii c) (lower_ascii k))
                                       (String.eqb c k)) keywords) keywords = true)
    as T by reflexivity.
  rewrite forallb_forall in T. specialize (T _ Hk).
  rewrite forallb_forall in T. specialize (T _ Hc).
  apply eqb_prop, T.
Qed.

Lemma existsb_eqb (f : string -> bool) (k : string) (l : list string) :
  In k l -> existsb (fun x => f x && String.eqb x k) l = f k.
Proof.
  induction l as [| a l IH]; intros H; [destruct H |].
  cbn [existsb]. destruct (String.eqb_spec a k) as [-> | N].
  - rewrite andb_true_r. destruct (f k) eqn:F; [reflexivity |].
    cbn [orb]. clear IH H. induction l as [| b l IH]; [reflexivity |].
    cbn [existsb]. destruct (String.eqb_spec b k) as [-> | _].
    + rewrite F. exact IH.
    + rewrite andb_false_r. exact IH.
  - rewrite andb_false_r. cbn [orb]. apply IH.
    destruct H as [E | H]; [congruence | exact H].
Qed.

(** X5: no catalog keyword occurs inside another, so that the substring
    test between keywords only ever matches a keyword with itself: the
    shared keywords are the catalog keywords found both in the reporter's
    company and in the title and summary of the content, in catalog order. *)
Theorem commonKeywords_intersection (toLowerCase : string -> string)
  (reporter : ReporterProfile) (content : ContentProfile) :
  lowers_basic_text toLowerCase ->
  commonKeywords toLowerCase reporter content
  = filter (fun keyword =>
              found_in toLowerCase (r_company reporter) keyword
              && found_in toLowerCase (c_title content ++ " " ++ c_summary content)
                          keyword)
           keywords.
Proof.
  intros L. rewrite commonKeywords_catalog.
  apply filter_ext_in. intros keyword Hk. f_equal.
  rewrite (existsb_ext_in _
             (fun contentKeyword =>
                found_in toLowerCase (c_title content ++ " " ++ c_summary content)
                         contentKeyword
                && String.eqb contentKeyword keyword)).
  - apply (existsb_eqb
             (found_in toLowerCase (c_title content ++ " " ++ c_summary content))).
    exact Hk.
  - intros contentKeyword Hc. f_equal.
    rewrite (L _ (keywords_basic _ Hk)), (L _ (keywords_basic _ Hc)).
    apply keywords_not_nested; assumption.
Qed.

Lemma commonKeywords_intersection_witness :
  commonKeywords lower_ascii
    (scenario_reporter "r1" "Sato" "sato@example.com" None)
    (scenario_content "c1" "PUBLISHED")
  = filter (fun keyword =>
              found_in lower_ascii "Example Newspaper Co. AI desk" keyword
              && found_in lower_ascii "Our AI DX project " keyword)
           keywords.
Proof.
  apply (commonKeywords_intersection lower_ascii
           (scenario_reporter "r1" "Sato" "sato@example.com" None)
           (scenario_content "c1" "PUBLISHED")).
  intros s _. reflexivity.
Defined.

(** ** generateRecommendation: what the draft says *)

Lemma append_assoc (a b c : string) : (a ++ b) ++ c = a ++ (b ++ c).
Proof. induction a as [| x a IH]; cbn [append]; [reflexivity | rewrite IH; reflexivity]. Qed.

Lemma prefix_skip (a b c : string) : prefix (a ++ b) (a ++ c) = prefix b c.
Proof.
  induction a as [| x a IH]; cbn [append prefix]; [reflexivity |].
  destruct (Ascii.ascii_dec x x) as [_ | N]; [exact IH | destruct (N eq_refl)].
Qed.

Lemma prefix_head (a b : string) : prefix a (a ++ b) = true.
Proof. apply prefix_append. exists b. reflexivity. Qed.

Lemma includes_head (t b : string) : includes (t ++ b) t = true.
Proof. apply includes_substring. exists "", b. reflexivity. Qed.

Lemma includes_skip (a s t : string) :
  includes s t = true -> includes (a ++ s) t = true.
Proof.
  rewrite !includes_substring. intros [x [y E]].
  exists (a ++ x), y. rewrite E, append_assoc. reflexivity.
Qed.

Lemma includes_head2 (a b r : string) : includes (a ++ b ++ r) (a ++ b) = true.
Proof. rewrite <- append_assoc. apply includes_head. Qed.

Lemma includes_head3 (a b c r : string) :
  includes (a ++ b ++ c ++ r) (a ++ b ++ c) = true.
Proof. rewrite <- (append_assoc b), <- !append_assoc. apply includes_head. Qed.

(** Finds a piece of a right-nested concatenation. *)
Ltac find_piece := repeat first [apply includes_head | apply includes_skip].

Section DraftProperties.

Variable numberToString : Q -> string.

(** X6: the first word of the subject tells the tone: the subject begins
    with 【緊急】 exactly when the tone is URGENT and with 【取材ご提案】
    exactly when it is FORMAL. *)
Theorem subject_announces_tone (reporter : ReporterProfile) (content : ContentProfile)
  (matchingScore : Q) :
  let draft := generateRecommendation numberToString reporter content matchingScore in
  (prefix "【緊急】" (subject draft) = true <-> tone draft = URGENT)
  /\ (prefix "【取材ご提案】" (subject draft) = true <-> tone draft = FORMAL).
Proof.
  cbv zeta. unfold generateRecommendation, generateSubject. cbn [subject tone].
  destruct (gt_num matchingScore 85).
  - split; split; intros H.
    + reflexivity.
    + apply prefix_head.
    + cbn in H. discriminate.
    + discriminate.
  - split; split; intros H.
    + cbn in H. discriminate.
    + discriminate.
    + reflexivity.
    + apply prefix_head.
Qed.

(** X7: a reporter whose company name contains 新聞 is addressed with 様 and
    the subject names 新聞; any other reporter is addressed with さん and the
    subject names メディア, in both cases between the urgency mark and the
    title. *)
Theorem newspaper_wording (reporter : ReporterProfile) (content : ContentProfile)
  (matchingScore : Q) :
  let newspaper := includes (r_company reporter) "新聞" in
  let urgency := if gt_num matchingScore 85 then "【緊急】" else "【取材ご提案】" in
  prefix (r_name reporter ++ "様") (generateBody numberToString content reporter matchingScore)
  = newspaper
  /\ prefix (r_name reporter ++ "さん")
            (generateBody numberToString content reporter matchingScore)
     = negb newspaper
  /\ prefix (urgency ++ "新聞様向け - " ++ c_title content)
            (generateSubject content reporter matchingScore)
     = newspaper
  /\ prefix (urgency ++ "メディア様向け - " ++ c_title content)
            (generateSubject content reporter matchingScore)
     = negb newspaper.
Proof.
  cbv zeta. unfold generateBody, generateSubject. cbv zeta.
  destruct (includes (r_company reporter) "新聞"); cbn [negb];
    rewrite !prefix_skip; repeat split; try reflexivity.
  - change ("新聞" ++ "様向け - " ++ c_title content ++ "について")
      with ("新聞様向け - " ++ c_title content ++ "について").
    rewrite prefix_skip. apply prefix_head.
  - change ("メディア" ++ "様向け - " ++ c_title content ++ "について")
      with ("メディア様向け - " ++ c_title content ++ "について").
    rewrite prefix_skip. apply prefix_head.
Qed.

(** X8: the body of a draft always contains the reporter's name, the
    reporter's company, the summary of the content and the score as
    printed, and it says ぜひ優先的に when the score exceeds 85. *)
Theorem body_mentions (reporter : ReporterProfile) (content : ContentProfile)
  (matchingScore : Q) :
  let body := generateBody numberToString content reporter matchingScore in
  includes body (r_name reporter) = true
  /\ includes body (r_company reporter ++ "でご活躍の" ++ r_name reporter) = true
  /\ includes body (c_summary content) = true
  /\ includes body ("マッチングスコア: " ++ numberToString matchingScore ++ "点") = true
  /\ (matchingScore > 85 ->
      includes body "ぜひ優先的に取材をご提案させていただきます。" = true).
Proof.
  cbv zeta. unfold generateBody. cbv zeta. repeat split.
  - find_piece.
  - do 12 apply includes_skip. apply includes_head3.
  - find_piece.
  - do 21 apply includes_skip. apply includes_head3.
  - intros G. apply gt_num_spec in G. rewrite G.
    do 17 apply includes_skip.
    apply (includes_head2 "ぜひ優先的に" "取材をご提案させていただきます。").
Qed.

End DraftProperties.

(** ** processContent: who gets a recommendation *)

Lemma find_first_match {A} (f : A -> bool) (pre post : list A) (x : A) :
  (forall y, In y pre -> f y = false) -> f x = true ->
  find f (pre ++ x :: post) = Some x.
Proof.
  intros Hpre Hx. induction pre as [| y pre IH]; cbn [app find].
  - rewrite Hx. reflexivity.
  - rewrite (Hpre y (or_introl eq_refl)). apply IH.
    intros z Hz. apply Hpre. right. exact Hz.
Qed.

Lemma find_unique_id (reporters : list ReporterProfile) (reporter : ReporterProfile) :
  NoDup (map r_id reporters) -> In reporter reporters ->
  find (fun r => String.eqb (r_id r) (r_id reporter)) reporters = Some reporter.
Proof.
  intros N H. apply in_split in H. destruct H as [pre [post ->]].
  apply find_first_match; [| apply String.eqb_refl].
  intros y Hy. apply String.eqb_neq. intros E.
  rewrite map_app in N. cbn [map] in N. apply NoDup_remove_2 in N.
  apply N, in_or_app. left. rewrite <- E. apply in_map, Hy.
Qed.

Section Recommendations.

Variable toLowerCase : string -> string.
Variable numberToString : Q -> string.
Variable rand : nat -> Q.

(** The recommendation drafted for a reporter from its own match result. *)
Lemma recommend_each (content : ContentProfile) (reporters : list ReporterProfile)
  (ps : list (ReporterProfile * MatchingScoreResult)) :
  (forall p, In p ps ->
             find (fun r => String.eqb (r_id r) (reporterId (snd p))) reporters
             = Some (fst p)) ->
  Promise_all (map (recommend numberToString content reporters)
                   (filter (fun result => ge_num (score result) 75) (map snd ps)))
  = Normal (map (fun p =>
                   {| rec_reporterId := reporterId (snd p);
                      draft := generateRecommendation numberToString (fst p) content
                                 (score (snd p)) |})
                (filter (fun p => ge_num (score (snd p)) 75) ps)).
Proof.
  induction ps as [| p ps IH]; intros H; [reflexivity |].
  cbn [map filter].
  assert (forall q, In q ps ->
            find (fun r => String.eqb (r_id r) (reporterId (snd q))) reporters
            = Some (fst q)) as H' by (intros q Hq; apply H; right; exact Hq).
  destruct (ge_num (score (snd p)) 75).
  - cbn [map Promise_all]. unfold recommend at 1.
    rewrite (H p (or_introl eq_refl)), (IH H'). reflexivity.
  - apply IH, H'.
Qed.

(** The reporters paired with their match results. *)
Lemma scored_pairs (content : ContentProfile) (reporters : list ReporterProfile)
  (n : nat) :
  let results :=
    map (fun p => fst (calculateMatchingScore toLowerCase rand (snd p) content (fst p)))
        (combine (seq n (List.length reporters)) reporters) in
  map snd (combine reporters results) = results
  /\ forall p, In p (combine reporters results) ->
               In (fst p) reporters /\ reporterId (snd p) = r_id (fst p).
Proof.
  cbv zeta. revert n. induction reporters as [| r rs IH]; intros n.
  - split; [reflexivity | intros p []].
  - cbn [List.length seq combine map fst snd]. destruct (IH (S n)) as [E I]. split.
    + rewrite E. reflexivity.
    + intros p [<- | Hp].
      * split; [left; reflexivity | reflexivity].
      * destruct (I p Hp) as [Hin Hid]. split; [right; exact Hin | exact Hid].
Qed.

(** X9: [processContent] never throws: the reporter of a match result is
    always found again by its id.  It draws one random number per
    reporter. *)
Theorem processContent_never_throws (content : ContentProfile)
  (reporters : list ReporterProfile) (n : nat) :
  exists res,
    processContentWithAI toLowerCase numberToString rand content reporters n
    = (Normal res, (n + List.length reporters)%nat)
    /\ List.length (matchingResults res) = List.length reporters
    /\ (List.length (recommendations res) <= List.length reporters)%nat.
Proof.
  unfold processContentWithAI.
  destruct (processContent_returns toLowerCase numberToString rand content reporters n)
    as [results [recs [E [F R]]]].
  rewrite E. eexists. split; [reflexivity |]. cbn [matchingResults recommendations].
  apply Forall2_length in F. apply Forall2_length in R.
  split; [symmetry; exact F |].
  rewrite <- R, F. apply filter_length_le.
Qed.

(** X10: the draft for a match result is written for the first reporter of
    the list that carries its id, whichever reporter was scored. *)
Theorem recommend_first_with_id (content : ContentProfile)
  (pre post : list ReporterProfile) (reporter : ReporterProfile)
  (result : MatchingScoreResult) :
  (forall r, In r pre -> r_id r <> reporterId result) ->
  r_id reporter = reporterId result ->
  recommend numberToString content (pre ++ reporter :: post) result
  = Normal {| rec_reporterId := reporterId result;
              draft := generateRecommendation numberToString reporter content
                         (score result) |}.
Proof.
  intros Hpre Hid. unfold recommend.
  rewrite (find_first_match _ pre post reporter).
  - reflexivity.
  - intros r Hr. apply String.eqb_neq, Hpre, Hr.
  - apply String.eqb_eq, Hid.
Qed.

(** X11: when the reporters have distinct ids, the recommendations are, in
    order, those of the reporters whose own match result scores at least
    75, each drafted for that reporter with that score. *)
Theorem recommendations_distinct_ids (content : ContentProfile)
  (reporters : list ReporterProfile) (n : nat) :
  NoDup (map r_id reporters) ->
  exists res,
    fst (processContent toLowerCase numberToString rand content reporters n)
    = Normal res
    /\ recommendations res
       = map (fun p =>
                {| rec_reporterId := r_id (fst p);
                   draft := generateRecommendation numberToString (fst p) content
                              (score (snd p)) |})
             (filter (fun p => ge_num (score (snd p)) 75)
                     (combine reporters (matchingResults res))).
Proof.
  intros N. unfold processContent. rewrite map_rand_calculateMatchingScore.
  cbv beta iota zeta.
  destruct (scored_pairs content reporters n) as [E I]. cbv zeta in E, I.
  set (results := map _ (combine (seq n _) reporters)) in *.
  assert (forall p, In p (combine reporters results) ->
            find (fun r => String.eqb (r_id r) (reporterId (snd p))) reporters
            = Some (fst p)) as Hfind.
  { intros p Hp. destruct (I p Hp) as [Hin ->]. apply find_unique_id; assumption. }
  pose proof (recommend_each content reporters (combine reporters results) Hfind) as P.
  rewrite E in P. rewrite P.
  eexists. split; [reflexivity |]. cbn [recommendations matchingResults].
  apply map_ext_in. intros p Hp. apply filter_In in Hp. destruct Hp as [Hp _].
  destruct (I p Hp) as [_ ->]. reflexivity.
Qed.

Lemma threshold_bool (reporter : ReporterProfile) (content : ContentProfile) (i : nat) :
  0 <= rand i < 1 ->
  ge_num (score (fst (calculateMatchingScore toLowerCase rand reporter content i))) 75
  = (1 <=? List.length (commonKeywords toLowerCase reporter content))%nat.
Proof.
  intros U. destruct (score_in_band toLowerCase rand reporter content i U) as [S0 [S1 S2]].
  destruct (List.length (commonKeywords toLowerCase reporter content)) as [| [| k]].
  - specialize (S0 eq_refl). cbn [Nat.leb].
    destruct (ge_num _ 75) eqn:G; [| reflexivity]. apply ge_num_spec in G. lra.
  - specialize (S1 eq_refl). apply ge_num_spec. lra.
  - assert (2 <= S (S k))%nat as K by lia. specialize (S2 K). apply ge_num_spec. lra.
Qed.

Lemma recommended_ids (content : ContentProfile) (reporters : list ReporterProfile)
  (results : list MatchingScoreResult) (recs : list Recommendation) :
  Forall2 (fun result rec =>
             recommend numberToString content reporters result = Normal rec)
          results recs ->
  map rec_reporterId recs = map reporterId results.
Proof.
  induction 1 as [| result rec results recs H _ IH]; [reflexivity |].
  cbn [map]. rewrite IH. f_equal. unfold recommend in H.
  destruct (find _ reporters); [| discriminate].
  injection H as <-. reflexivity.
Qed.

(** X12: which reporters get a recommendation does not depend on the random
    draws: they are, in order, those that share a keyword with the
    content. *)
Theorem recipients_share_a_keyword (content : ContentProfile)
  (reporters : list ReporterProfile) (n : nat) :
  (forall i, 0 <= rand i < 1) ->
  exists res,
    fst (processContent toLowerCase numberToString rand content reporters n)
    = Normal res
    /\ map rec_reporterId (recommendations res)
       = map r_id
           (filter (fun reporter =>
                      (1 <=? List.length (commonKeywords toLowerCase reporter content))%nat)
                   reporters).
Proof.
  intros U.
  destruct (processContent_returns toLowerCase numberToString rand content reporters n)
    as [results [recs [E [F R]]]].
  rewrite E. eexists. split; [reflexivity |]. cbn [recommendations].
  rewrite (recommended_ids _ _ _ _ R). clear E R recs.
  induction F as [| reporter result reporters' results [i ->] _ IH]; [reflexivity |].
  cbn [filter]. rewrite (threshold_bool reporter content i (U i)).
  destruct (1 <=? _)%nat; cbn [map]; rewrite IH; reflexivity.
Qed.

Lemma scored_append (g : ReporterProfile -> nat -> MatchingScoreResult)
  (rs1 rs2 : list ReporterProfile) (n : nat) :
  map (fun p => g (snd p) (fst p))
      (combine (seq n (List.length (rs1 ++ rs2))) (rs1 ++ rs2))
  = (map (fun p => g (snd p) (fst p)) (combine (seq n (List.length rs1)) rs1)
     ++ map (fun p => g (snd p) (fst p))
            (combine (seq (n + List.length rs1) (List.length rs2)) rs2))%list.
Proof.
  revert n. induction rs1 as [| r rs1 IH]; intros n.
  - cbn [app List.length seq combine map]. rewrite Nat.add_0_r. reflexivity.
  - cbn [app List.length seq combine map]. rewrite IH, Nat.add_succ_r. reflexivity.
Qed.

(** X13: a reporter's match result does not depend on the other reporters
    of the list, only on its draw: the match results of a list made of two
    parts are those of the first part followed by those of the second,
    scored with the draws that follow. *)
Theorem matchingResults_append (content : ContentProfile)
  (rs1 rs2 : list ReporterProfile) (n : nat) :
  exists res res1 res2,
    fst (processContent toLowerCase numberToString rand content (rs1 ++ rs2) n)
    = Normal res
    /\ fst (processContent toLowerCase numberToString rand content rs1 n) = Normal res1
    /\ fst (processContent toLowerCase numberToString rand content rs2
              (n + List.length rs1)%nat) = Normal res2
    /\ matchingResults res = (matchingResults res1 ++ matchingResults res2)%list
    /\ tags res = tags res1.
Proof.
  assert (forall rs m, exists recs,
            processContent toLowerCase numberToString rand content rs m
            = (Normal {| tags := generateTags toLowerCase content;
                         matchingResults :=
                           map (fun p => fst (calculateMatchingScore toLowerCase rand
                                                (snd p) content (fst p)))
                               (combine (seq m (List.length rs)) rs);
                         recommendations := recs |},
               (m + List.length rs)%nat)) as H.
  { intros rs m.
    destruct (processContent_returns toLowerCase numberToString rand content rs m)
      as [results [recs [E _]]].
    unfold processContent in *. rewrite map_rand_calculateMatchingScore in *.
    cbv beta iota zeta in *.
    destruct (Promise_all _) as [recs' | e]; [| discriminate E].
    exists recs'. reflexivity. }
  destruct (H (rs1 ++ rs2)%list n) as [recs E].
  destruct (H rs1 n) as [recs1 E1].
  destruct (H rs2 (n + List.length rs1)%nat) as [recs2 E2].
  rewrite E, E1, E2. do 3 eexists. repeat (split; [reflexivity |]).
  cbn [matchingResults tags]. split; [| reflexivity].
  apply (scored_append
           (fun r i => fst (calculateMatchingScore toLowerCase rand r content i))).
Qed.

End Recommendations.

Lemma recommend_first_with_id_witness :
  recommend show_tenths (scenario_content "c1" "PUBLISHED")
    ([] ++ scenario_reporter "r1" "Sato" "sato@example.com" None
        :: [scenario_reporter "r1" "Kato" "kato@example.com" None])
    (fst (calculateMatchingScore lower_ascii demo_rand
            (scenario_reporter "r1" "Kato" "kato@example.com" None)
            (scenario_content "c1" "PUBLISHED") 1%nat))
  = Normal
      {| rec_reporterId := "r1";
         draft := generateRecommendation show_tenths
                    (scenario_reporter "r1" "Sato" "sato@example.com" None)
                    (scenario_content "c1" "PUBLISHED")
                    (score (fst (calculateMatchingScore lower_ascii demo_rand
                                   (scenario_reporter "r1" "Kato" "kato@example.com" None)
                                   (scenario_content "c1" "PUBLISHED") 1%nat))) |}.
Proof.
  apply (recommend_first_with_id show_tenths (scenario_content "c1" "PUBLISHED") []
           [scenario_reporter "r1" "Kato" "kato@example.com" None]
           (scenario_reporter "r1" "Sato" "sato@example.com" None)).
  - intros r [].
  - reflexivity.
Defined.

Lemma recommendations_distinct_ids_witness :
  exists res,
    fst (processContent lower_ascii show_tenths demo_rand
           (scenario_content "c1" "PUBLISHED")
           [scenario_reporter "r1" "Sato" "sato@example.com" None;
            scenario_reporter "r2" "Kato" "kato@example.com" None] 0%nat)
    = Normal res
    /\ recommendations res
       = map (fun p =>
                {| rec_reporterId := r_id (fst p);
                   draft := generateRecommendation show_tenths (fst p)
                              (scenario_content "c1" "PUBLISHED") (score (snd p)) |})
             (filter (fun p => ge_num (score (snd p)) 75)
                     (combine
                        [scenario_reporter "r1" "Sato" "sato@example.com" None;
                         scenario_reporter "r2" "Kato" "kato@example.com" None]
                        (matchingResults res))).
Proof.
  apply (recommendations_distinct_ids lower_ascii show_tenths demo_rand
           (scenario_content "c1" "PUBLISHED")
           [scenario_reporter "r1" "Sato" "sato@example.com" None;
            scenario_reporter "r2" "Kato" "kato@example.com" None] 0%nat).
  cbn [map scenario_reporter r_id].
  constructor; [cbn; intuition discriminate |].
  constructor; [cbn; intuition |]. constructor.
Defined.

Lemma recipients_share_a_keyword_witness :
  exists res,
    fst (processContent lower_ascii show_tenths (fun _ => 1 # 2)
           (scenario_content "c1" "PUBLISHED")
           [scenario_reporter "r1" "Sato" "sato@example.com" None] 0%nat)
    = Normal res
    /\ map rec_reporterId (recommendations res) = ["r1"].
Proof.
  apply (recipients_share_a_keyword lower_ascii show_tenths (fun _ => 1 # 2)
           (scenario_content "c1" "PUBLISHED")
           [scenario_reporter "r1" "Sato" "sato@example.com" None] 0%nat).
  intros i. vm_compute. split; [discriminate | reflexivity].
Defined.

(** ** calculateMatchingScore: empty texts and the reasons *)

Lemma extractKeywords_basic (toLowerCase : string -> string) (text : string) :
  lowers_basic_text toLowerCase -> basic_text text = true ->
  extractKeywords toLowerCase text = extractKeywords lower_ascii text.
Proof.
  intros L B. unfold extractKeywords. apply filter_ext_in. intros keyword Hk.
  rewrite (L _ B), (L _ (keywords_basic _ Hk)). reflexivity.
Qed.

(** X14: a reporter whose company is empty, and any reporter when the title
    and the summary of the content are both empty, shares no keyword: the
    score is at most 70, below the threshold of a recommendation, and the
    reasons are the two fixed phrases alone. *)
Theorem empty_text_shares_nothing (toLowerCase : string -> string) (rand : nat -> Q)
  (reporter : ReporterProfile) (content : ContentProfile) (n : nat) :
  lowers_basic_text toLowerCase ->
  0 <= rand n < 1 ->
  r_company reporter = "" \/ (c_title content = "" /\ c_summary content = "") ->
  let result := fst (calculateMatchingScore toLowerCase rand reporter content n) in
  commonKeywords toLowerCase reporter content = []
  /\ 60 <= score result <= 70
  /\ ge_num (score result) 75 = false
  /\ reasons result = ["記者の専門性"; "関連性の高さ"].
Proof.
  intros L U H. cbv zeta.
  assert (commonKeywords toLowerCase reporter content = []) as K.
  { unfold commonKeywords. destruct H as [-> | [-> ->]].
    - rewrite (extractKeywords_basic _ "" L eq_refl). reflexivity.
    - cbn [append]. rewrite (extractKeywords_basic _ " " L eq_refl).
      apply filter_none. intros keyword _. reflexivity. }
  destruct (score_in_band toLowerCase rand reporter content n U) as [S0 _].
  rewrite K in S0. specialize (S0 eq_refl).
  split; [exact K |]. split; [exact S0 |]. split.
  - destruct (ge_num _ 75) eqn:G; [| reflexivity]. apply ge_num_spec in G. lra.
  - cbn [fst calculateMatchingScore Math_random reasons]. rewrite K. reflexivity.
Qed.

Lemma empty_text_shares_nothing_witness :
  commonKeywords lower_ascii
    {| r_id := "r3"; r_name := "Mori"; r_email := "mori@example.com";
       r_company := ""; r_socialMedia := None |}
    (scenario_content "c1" "PUBLISHED") = [].
Proof.
  apply (empty_text_shares_nothing lower_ascii demo_rand
           {| r_id := "r3"; r_name := "Mori"; r_email := "mori@example.com";
              r_company := ""; r_socialMedia := None |}
           (scenario_content "c1" "PUBLISHED") 0%nat).
  - intros s _. reflexivity.
  - vm_compute. split; [discriminate | reflexivity].
  - left. reflexivity.
Defined.

Lemma firstn_incl {A} (n : nat) (l : list A) (x : A) : In x (firstn n l) -> In x l.
Proof.
  revert l. induction n as [| n IH]; intros [| a l] H; try destruct H.
  - left. assumption.
  - right. apply IH. assumption.
Qed.

Lemma firstn_NoDup {A} (n : nat) (l : list A) : NoDup l -> NoDup (firstn n l).
Proof.
  revert l. induction n as [| n IH]; intros [| a l] H; cbn [firstn]; try constructor.
  - inversion H as [| ? ? Hn _]. subst. intros Hin. apply Hn, (firstn_incl n), Hin.
  - inversion H. subst. apply IH. assumption.
Qed.

(** X15: the reasons of a match result hold between two and five entries;
    each is one of the two fixed phrases or a catalog keyword found in the
    reporter's company, and no keyword is given twice. *)
Theorem reasons_are_keywords (toLowerCase : string -> string) (rand : nat -> Q)
  (reporter : ReporterProfile) (content : ContentProfile) (n : nat) :
  let result := calculateReporterContentMatch toLowerCase rand reporter content n in
  (2 <= List.length (reasons (fst result)) <= 5)%nat
  /\ (forall reason, In reason (reasons (fst result)) ->
        reason = "記者の専門性" \/ reason = "関連性の高さ"
        \/ (In reason keywords
            /\ includes (toLowerCase (r_company reporter)) (toLowerCase reason) = true))
  /\ NoDup (firstn 3 (commonKeywords toLowerCase reporter content))
  /\ snd result = S n.
Proof.
  cbv zeta. unfold calculateReporterContentMatch.
  cbn [fst snd calculateMatchingScore Math_random reasons].
  split; [| split; [| split]].
  - rewrite length_app. cbn [List.length].
    pose proof (firstn_le_length 3 (commonKeywords toLowerCase reporter content)). lia.
  - intros reason H. apply in_app_or in H. destruct H as [H | [<- | [<- | []]]].
    + right. right. apply firstn_incl in H. unfold commonKeywords in H.
      apply filter_In in H. destruct H as [H _]. unfold extractKeywords in H.
      apply filter_In in H. exact H.
    + left. reflexivity.
    + right. left. reflexivity.
  - apply firstn_NoDup. unfold commonKeywords, extractKeywords.
    do 2 apply NoDup_filter.
    repeat (constructor; [cbn; intuition discriminate |]). constructor.
  - reflexivity.
Qed.

(** * The score in binary64 arithmetic *)

(** ** Rounding to the nearest double *)

Lemma Zlt_of_Q (a b : Z) : inject_Z a < inject_Z b -> (a < b)%Z.
Proof. intros H. rewrite Zlt_Qlt. exact H. Qed.

Lemma Zle_of_Q (a b : Z) : inject_Z a <= inject_Z b -> (a <= b)%Z.
Proof. intros H. rewrite Zle_Qle. exact H. Qed.

Lemma inject_Z_succ (a : Z) : inject_Z (a + 1) == inject_Z a + 1.
Proof. rewrite inject_Z_plus. reflexivity. Qed.

Lemma round_half_even_floor (y : Q) :
  (Qfloor y <= round_half_even y <= Qfloor y + 1)%Z.
Proof.
  unfold round_half_even. cbv zeta.
  destruct (Qcompare _ _); [destruct (Z.even _) | |]; lia.
Qed.

Lemma round_half_even_upper (y : Q) : inject_Z (round_half_even y) <= y + (1 # 2).
Proof.
  unfold round_half_even. cbv zeta. pose proof (Qfloor_le y) as F.
  destruct (Qcompare (y - inject_Z (Qfloor y)) (1 # 2)) eqn:C.
  - apply Qeq_alt in C. destruct (Z.even _); [lra | rewrite inject_Z_succ; lra].
  - lra.
  - apply Qgt_alt in C. rewrite inject_Z_succ.
    pose proof (Qlt_floor y) as L. rewrite inject_Z_succ in L. lra.
Qed.

Lemma round_half_even_lower (y : Q) : y - (1 # 2) <= inject_Z (round_half_even y).
Proof.
  unfold round_half_even. cbv zeta. pose proof (Qlt_floor y) as L.
  rewrite inject_Z_succ in L.
  destruct (Qcompare (y - inject_Z (Qfloor y)) (1 # 2)) eqn:C.
  - apply Qeq_alt in C. destruct (Z.even _); [lra | rewrite inject_Z_succ; lra].
  - apply Qlt_alt in C. lra.
  - rewrite inject_Z_succ. lra.
Qed.

Lemma round_half_even_le (M : Z) (y : Q) :
  y <= inject_Z M -> (round_half_even y <= M)%Z.
Proof.
  intros H. pose proof (Qfloor_le y) as F.
  unfold round_half_even. cbv zeta.
  assert (Qfloor y <= M)%Z as FM by (apply Zle_of_Q; lra).
  assert (y - inject_Z (Qfloor y) > 0 -> (Qfloor y + 1 <= M)%Z) as G.
  { intros P. assert (Qfloor y < M)%Z by (apply Zlt_of_Q; lra). lia. }
  destruct (Qcompare (y - inject_Z (Qfloor y)) (1 # 2)) eqn:C.
  - apply Qeq_alt in C. destruct (Z.even _); [exact FM | apply G; lra].
  - exact FM.
  - apply Qgt_alt in C. apply G. lra.
Qed.

Lemma round_half_even_ge (M : Z) (y : Q) :
  inject_Z M <= y -> (M <= round_half_even y)%Z.
Proof.
  intros H. pose proof (Qlt_floor y) as L. rewrite inject_Z_succ in L.
  assert (M <= Qfloor y)%Z.
  { assert (M < Qfloor y + 1)%Z by (apply Zlt_of_Q; rewrite inject_Z_succ; lra). lia. }
  pose proof (round_half_even_floor y). lia.
Qed.

Lemma round_half_even_below (M : Z) (y : Q) :
  y < inject_Z M - (1 # 2) -> (round_half_even y <= M - 1)%Z.
Proof.
  intros H. pose proof (round_half_even_upper y) as U.
  assert (round_half_even y < M)%Z by (apply Zlt_of_Q; lra). lia.
Qed.

Lemma pow2_pos (e : Z) : 0 < 2 ^ e.
Proof. apply Qpower_0_lt. reflexivity. Qed.

Lemma pow2_le (a b : Z) : (a <= b)%Z -> 2 ^ a <= 2 ^ b.
Proof. intros H. apply Qpower_le_compat_l; [exact H | discriminate]. Qed.

Lemma pow2_lt (a b : Z) : (a < b)%Z -> 2 ^ a < 2 ^ b.
Proof. intros H. apply Qpower_lt_compat_l; [exact H | reflexivity]. Qed.

Lemma pow2_lt_inv (a b : Z) : 2 ^ a < 2 ^ b -> (a < b)%Z.
Proof. intros H. apply (Qpower_lt_compat_l_inv 2); [exact H | reflexivity]. Qed.

Lemma pow2_succ (e : Z) : 2 ^ (e + 1) == 2 * 2 ^ e.
Proof. rewrite Qpower_plus by discriminate. change (2 ^ 1) with 2. ring. Qed.

Lemma pow2_Z (e : Z) : (0 <= e)%Z -> 2 ^ e == inject_Z (2 ^ e).
Proof. intros H. rewrite Zpower_Qpower by exact H. reflexivity. Qed.

Lemma pow2_cancel (p : Z) : 2 ^ (- p) * 2 ^ p == 1.
Proof. rewrite <- Qpower_plus by discriminate. replace (- p + p)%Z with 0%Z by lia. reflexivity. Qed.

Lemma frac_lt (n1 d1 n2 d2 : Z) :
  (0 < d1)%Z -> (0 < d2)%Z -> (n1 * d2 < n2 * d1)%Z ->
  inject_Z n1 / inject_Z d1 < inject_Z n2 / inject_Z d2.
Proof.
  intros H1 H2 L.
  assert (0 < inject_Z d1) as P1 by (change 0 with (inject_Z 0); rewrite <- Zlt_Qlt; exact H1).
  assert (0 < inject_Z d2) as P2 by (change 0 with (inject_Z 0); rewrite <- Zlt_Qlt; exact H2).
  apply Qlt_shift_div_l; [exact P2 |].
  assert (inject_Z n1 / inject_Z d1 * inject_Z d2
          == (inject_Z n1 * inject_Z d2) / inject_Z d1) as R by (field; lra).
  rewrite R. apply Qlt_shift_div_r; [exact P1 |].
  rewrite <- !inject_Z_mult, <- Zlt_Qlt. exact L.
Qed.

Lemma frac_le (n1 d1 n2 d2 : Z) :
  (0 < d1)%Z -> (0 < d2)%Z -> (n1 * d2 <= n2 * d1)%Z ->
  inject_Z n1 / inject_Z d1 <= inject_Z n2 / inject_Z d2.
Proof.
  intros H1 H2 L.
  assert (0 < inject_Z d1) as P1 by (change 0 with (inject_Z 0); rewrite <- Zlt_Qlt; exact H1).
  assert (0 < inject_Z d2) as P2 by (change 0 with (inject_Z 0); rewrite <- Zlt_Qlt; exact H2).
  apply Qle_shift_div_l; [exact P2 |].
  assert (inject_Z n1 / inject_Z d1 * inject_Z d2
          == (inject_Z n1 * inject_Z d2) / inject_Z d1) as R by (field; lra).
  rewrite R. apply Qle_shift_div_r; [exact P1 |].
  rewrite <- !inject_Z_mult, <- Zle_Qle. exact L.
Qed.

(** The binade of a positive number. *)
Lemma binade_spec (x : Q) : 0 < x -> 2 ^ binade x <= x < 2 ^ (binade x + 1).
Proof.
  intros H. destruct x as [n d]. unfold binade. cbn [Qnum Qden].
  assert (0 < n)%Z as Hn by (unfold Qlt in H; cbn in H; lia).
  destruct (Z.log2_spec n Hn) as [Na Nb].
  destruct (Z.log2_spec (Zpos d) eq_refl) as [Da Db].
  pose proof (Z.log2_nonneg n) as An. pose proof (Z.log2_nonneg (Zpos d)) as Ad.
  set (a := Z.log2 n) in *. set (b := Z.log2 (Zpos d)) in *.
  assert (forall u v, (0 <= u)%Z -> (0 <= v)%Z ->
            2 ^ (u - v) == inject_Z (2 ^ u) / inject_Z (2 ^ v)) as P.
  { intros u v Hu Hv. rewrite Qpower_minus by discriminate.
    rewrite !pow2_Z by assumption. reflexivity. }
  assert (n # d == inject_Z n / inject_Z (Zpos d)) as X by apply Qmake_Qdiv.
  assert (forall v, (0 <= v)%Z -> (0 < 2 ^ v)%Z) as Vp
    by (intros v Hv; apply Z.pow_pos_nonneg; lia).
  assert (2 ^ Z.succ a = 2 * 2 ^ a)%Z as Sa by (apply Z.pow_succ_r; exact An).
  assert (2 ^ Z.succ b = 2 * 2 ^ b)%Z as Sb by (apply Z.pow_succ_r; exact Ad).
  assert (n # d < 2 ^ (a - b + 1)) as Up.
  { replace (a - b + 1)%Z with (Z.succ a - b)%Z by lia. rewrite P by lia. rewrite X.
    apply frac_lt; [lia | apply Vp; lia |]. pose proof (Vp b Ad). nia. }
  assert (2 ^ (a - b - 1) <= n # d) as Lo.
  { replace (a - b - 1)%Z with (a - Z.succ b)%Z by lia. rewrite P by lia. rewrite X.
    apply frac_le; [apply Vp; lia | lia |]. pose proof (Vp a An). nia. }
  destruct (Qle_bool (2 ^ (a - b)) (n # d)) eqn:C.
  - apply Qle_bool_iff in C. split; assumption.
  - split; [exact Lo |]. replace (a - b - 1 + 1)%Z with (a - b)%Z by lia.
    destruct (Qlt_le_dec (n # d) (2 ^ (a - b))) as [L | L]; [exact L |].
    apply Qle_bool_iff in L. congruence.
Qed.

Lemma binade_below (x : Q) (k : Z) : 0 < x -> x < 2 ^ k -> (binade x < k)%Z.
Proof.
  intros H L. destruct (binade_spec x H) as [B _].
  apply pow2_lt_inv. lra.
Qed.

Lemma binade_above (x : Q) (k : Z) : 0 < x -> 2 ^ k <= x -> (k <= binade x)%Z.
Proof.
  intros H L. destruct (binade_spec x H) as [_ B].
  assert (k < binade x + 1)%Z by (apply pow2_lt_inv; lra). lia.
Qed.

Lemma round64_positive (x : Q) :
  0 < x -> round64 x = inject_Z (round_half_even (x / 2 ^ ulp_exponent x)) * 2 ^ ulp_exponent x.
Proof. intros H. unfold round64. apply Qgt_alt in H. rewrite H. reflexivity. Qed.

Lemma round64_le_multiple (x : Q) (M : Z) :
  0 < x -> x <= inject_Z M * 2 ^ ulp_exponent x ->
  round64 x <= inject_Z M * 2 ^ ulp_exponent x.
Proof.
  intros H L. rewrite (round64_positive x H).
  pose proof (pow2_pos (ulp_exponent x)) as P.
  apply Qmult_le_compat_r; [| lra]. rewrite <- Zle_Qle.
  apply round_half_even_le. apply Qle_shift_div_r; assumption.
Qed.

Lemma round64_ge_multiple (x : Q) (M : Z) :
  0 < x -> inject_Z M * 2 ^ ulp_exponent x <= x ->
  inject_Z M * 2 ^ ulp_exponent x <= round64 x.
Proof.
  intros H L. rewrite (round64_positive x H).
  pose proof (pow2_pos (ulp_exponent x)) as P.
  apply Qmult_le_compat_r; [| lra]. rewrite <- Zle_Qle.
  apply round_half_even_ge. apply Qle_shift_div_l; assumption.
Qed.

Lemma round64_below_multiple (x : Q) (M : Z) :
  0 < x -> x < (inject_Z M - (1 # 2)) * 2 ^ ulp_exponent x ->
  round64 x <= inject_Z (M - 1) * 2 ^ ulp_exponent x.
Proof.
  intros H L. rewrite (round64_positive x H).
  pose proof (pow2_pos (ulp_exponent x)) as P.
  apply Qmult_le_compat_r; [| lra]. rewrite <- Zle_Qle.
  apply round_half_even_below. apply Qlt_shift_div_r; assumption.
Qed.

Lemma round64_error (x : Q) :
  0 < x -> Qabs (round64 x - x) <= (1 # 2) * 2 ^ ulp_exponent x.
Proof.
  intros H. rewrite (round64_positive x H).
  pose proof (pow2_pos (ulp_exponent x)) as P.
  set (p := 2 ^ ulp_exponent x) in *.
  pose proof (round_half_even_upper (x / p)) as U.
  pose proof (round_half_even_lower (x / p)) as L.
  set (r := inject_Z (round_half_even (x / p))) in *.
  assert (x == (x / p) * p) as E by (field; lra).
  apply Qabs_Qle_condition. split.
  - assert ((x / p - (1 # 2)) * p <= r * p) by (apply Qmult_le_compat_r; lra). lra.
  - assert (r * p <= (x / p + (1 # 2)) * p) by (apply Qmult_le_compat_r; lra). lra.
Qed.

(** Integers bound the rounding of the numbers below 2^53. *)
Lemma integer_multiple (a : Z) (x : Q) :
  0 < x -> x < 2 ^ 53 ->
  exists M : Z, inject_Z a == inject_Z M * 2 ^ ulp_exponent x.
Proof.
  intros H L. pose proof (binade_below x 53 H L) as B.
  assert (ulp_exponent x <= 0)%Z as P by (unfold ulp_exponent; lia).
  exists (a * 2 ^ (- ulp_exponent x))%Z.
  rewrite inject_Z_mult, <- pow2_Z by lia.
  rewrite <- Qmult_assoc, pow2_cancel. ring.
Qed.

Lemma round64_ge_integer (a : Z) (x : Q) :
  0 < x -> x < 2 ^ 53 -> inject_Z a <= x -> inject_Z a <= round64 x.
Proof.
  intros H L A. destruct (integer_multiple a x H L) as [M E].
  rewrite E in *. apply round64_ge_multiple; assumption.
Qed.

Lemma round64_le_integer (a : Z) (x : Q) :
  0 < x -> x < 2 ^ 53 -> x <= inject_Z a -> round64 x <= inject_Z a.
Proof.
  intros H L A. destruct (integer_multiple a x H L) as [M E].
  rewrite E in *. apply round64_le_multiple; assumption.
Qed.

(** The largest double below one. *)
Lemma double_below_one (u : Q) :
  is_double u -> 0 < u -> u < 1 -> u <= 1 - 2 ^ (-53).
Proof.
  intros D P L.
  assert (binade u < 0)%Z as B by (apply binade_below; assumption).
  change (2 ^ (-53)) with (1 # 9007199254740992).
  destruct (Z.eq_dec (binade u) (-1)) as [E | N].
  - unfold is_double in D. rewrite (round64_positive u P) in D.
    assert (ulp_exponent u = (-53)%Z) as U by (unfold ulp_exponent; rewrite E; reflexivity).
    rewrite U in D. change (2 ^ (-53)) with (1 # 9007199254740992) in D.
    set (N := round_half_even _) in D.
    assert (N < 9007199254740992)%Z as K.
    { apply Zlt_of_Q. change (inject_Z 9007199254740992) with 9007199254740992. lra. }
    assert (inject_Z N <= inject_Z 9007199254740991) as K' by (rewrite <- Zle_Qle; lia).
    change (inject_Z 9007199254740991) with 9007199254740991 in K'. lra.
  - destruct (binade_spec u P) as [_ S].
    assert (2 ^ (binade u + 1) <= 2 ^ (-1)) as M by (apply pow2_le; lia).
    change (2 ^ (-1)) with (1 # 2) in M. lra.
Qed.

(** The random term of the score: ten times a draw is still below ten. *)
Lemma draw_term (u : Q) :
  is_double u -> 0 <= u < 1 -> 0 <= fmul u 10 < 10.
Proof.
  intros D [U0 U1]. unfold fmul.
  destruct (Qlt_le_dec 0 u) as [P | Z0].
  - pose proof (double_below_one u D P U1) as T.
    change (2 ^ (-53)) with (1 # 9007199254740992) in T.
    assert (0 < u * 10) as X0 by lra.
    assert (u * 10 < 2 ^ 53) as X53
      by (change (2 ^ 53) with 9007199254740992; lra).
    split.
    + apply (round64_ge_integer 0); [assumption | assumption | change (inject_Z 0) with 0; lra].
    + destruct (Qlt_le_dec 8 (u * 10)) as [G | G].
      * assert (binade (u * 10) = 3%Z) as E.
        { assert (3 <= binade (u * 10))%Z
            by (apply binade_above; [exact X0 | change (2 ^ 3) with 8; lra]).
          assert (binade (u * 10) < 4)%Z
            by (apply binade_below; [exact X0 | change (2 ^ 4) with 16; lra]).
          lia. }
        assert (ulp_exponent (u * 10) = (-49)%Z) as UE
          by (unfold ulp_exponent; rewrite E; reflexivity).
        pose proof (round64_below_multiple (u * 10) 5629499534213120 X0) as R.
        rewrite UE in R.
        change (2 ^ (-49)) with (1 # 562949953421312) in R.
        change (inject_Z 5629499534213120) with 5629499534213120 in R.
        change (inject_Z (5629499534213120 - 1)) with 5629499534213119 in R.
        assert (round64 (u * 10) <= 5629499534213119 * (1 # 562949953421312))
          by (apply R; lra).
        lra.
      * assert (round64 (u * 10) <= inject_Z 8)
          by (apply round64_le_integer; [assumption | assumption | exact G]).
        change (inject_Z 8) with 8 in *. lra.
  - assert (u * 10 == 0) as E by lra.
    unfold round64. apply Qeq_alt in E. rewrite E. lra.
Qed.

(** The code's rounding to one decimal keeps a number between the integers
    that bound it. *)
Lemma round1_64_between (B : Z) (s : Q) :
  (0 < B <= 1000)%Z -> inject_Z B <= s <= inject_Z B + 10 ->
  inject_Z B <= round1_64 s <= inject_Z B + 10.
Proof.
  intros [B0 B1] [S0 S1]. unfold round1_64, fdiv, fmul.
  assert (0 < inject_Z B <= 1000) as [Q0 Q1].
  { split; [change 0 with (inject_Z 0); rewrite <- Zlt_Qlt; exact B0 |].
    change 1000 with (inject_Z 1000). rewrite <- Zle_Qle. exact B1. }
  assert (forall x, x <= 100000 -> x < 2 ^ 53) as Small
    by (intros x Hx; change (2 ^ 53) with 9007199254740992; lra).
  assert (inject_Z (10 * B) <= round64 (s * 10) <= inject_Z (10 * B + 100)) as [T0 T1].
  { split.
    - apply round64_ge_integer; [lra | apply Small; lra |].
      rewrite inject_Z_mult. change (inject_Z 10) with 10. lra.
    - apply round64_le_integer; [lra | apply Small; lra |].
      rewrite inject_Z_plus, inject_Z_mult.
      change (inject_Z 10) with 10. change (inject_Z 100) with 100. lra. }
  set (t := round64 (s * 10)) in *.
  pose proof (Math_round_ge _ _ T0) as Z0. pose proof (Math_round_le _ _ T1) as Z1.
  set (z := Math_round t) in *.
  assert (10 * inject_Z B <= inject_Z z <= 10 * inject_Z B + 100) as [Y0 Y1].
  { rewrite Zle_Qle in Z0, Z1. rewrite inject_Z_plus, inject_Z_mult in Z1.
    rewrite inject_Z_mult in Z0.
    change (inject_Z 10) with 10 in *. change (inject_Z 100) with 100 in *.
    split; assumption. }
  assert (inject_Z B <= inject_Z z / 10 <= inject_Z B + 10) as [W0 W1].
  { unfold Qdiv. change (/ 10) with (1 # 10). split; lra. }
  split.
  - apply round64_ge_integer; [lra | apply Small; lra | exact W0].
  - assert (inject_Z B + 10 == inject_Z (B + 10)) as E
      by (rewrite inject_Z_plus; reflexivity).
    rewrite E in *. apply round64_le_integer; [lra | apply Small; lra | exact W1].
Qed.

Lemma ulp_exponent_below (x : Q) (k : Z) :
  0 < x -> x < 2 ^ k -> (-1022 < k)%Z -> 2 ^ ulp_exponent x <= 2 ^ (k - 53).
Proof.
  intros P L K. pose proof (binade_below x k P L).
  apply pow2_le. unfold ulp_exponent. lia.
Qed.

(** The code's rounding to one decimal: the double nearest to a number of
    tenths that lies within a twentieth of [s], up to the rounding of the
    product. *)
Lemma round1_64_one_decimal (s : Q) :
  1 <= s <= 100 ->
  exists z : Z,
    round1_64 s = round64 (inject_Z z / 10)
    /\ Qabs (inject_Z z / 10 - s) <= (1 # 20) + 2 ^ (-47)
    /\ Qabs (round1_64 s - inject_Z z / 10) <= 2 ^ (-47).
Proof.
  intros [S0 S1]. unfold round1_64, fdiv, fmul.
  exists (Math_round (round64 (s * 10))). split; [reflexivity |].
  assert (0 < s * 10) as X0 by lra.
  pose proof (round64_error (s * 10) X0) as E1.
  assert (2 ^ ulp_exponent (s * 10) <= 2 ^ (10 - 53)) as U1
    by (apply ulp_exponent_below; [exact X0 | change (2 ^ 10) with 1024; lra | lia]).
  change (2 ^ (10 - 53)) with (1 # 8796093022208) in U1.
  assert (inject_Z 10 <= round64 (s * 10)) as T0.
  { apply round64_ge_integer;
      [exact X0 | change (2 ^ 53) with 9007199254740992; lra
       | change (inject_Z 10) with 10; lra]. }
  set (t := round64 (s * 10)) in *.
  pose proof (Math_round_lower t) as L. pose proof (Math_round_upper t) as U.
  pose proof (Math_round_ge _ _ T0) as Z0. rewrite Zle_Qle in Z0.
  change (inject_Z 10) with 10 in *.
  set (z := inject_Z (Math_round t)) in *.
  apply Qabs_Qle_condition in E1. destruct E1 as [E1a E1b].
  change (2 ^ (-47)) with (1 # 140737488355328).
  assert (z / 10 == z * (1 # 10)) as D by (unfold Qdiv; reflexivity).
  split.
  - apply Qabs_Qle_condition. rewrite D. split; lra.
  - assert (0 < z / 10) as X3 by (rewrite D; lra).
    pose proof (round64_error (z / 10) X3) as E3.
    assert (2 ^ ulp_exponent (z / 10) <= 2 ^ (7 - 53)) as U3.
    { apply ulp_exponent_below; [exact X3 | | lia].
      change (2 ^ 7) with 128. rewrite D. lra. }
    change (2 ^ (7 - 53)) with (1 # 70368744177664) in U3.
    eapply Qle_trans; [exact E3 |]. lra.
Qed.

(** ** The model of rounding against the Standard Library's IEEE 754 *)

Example round64_agrees_product :
  SF2Q (SFmul 53 1024 (binary64 405323966463343 (-53)) (binary64 10 0))
  == fmul sample_draw 10.
Proof. vm_compute. reflexivity. Qed.

Example round64_agrees_sum :
  SF2Q (SFadd 53 1024 (binary64 60 0)
          (SFmul 53 1024 (binary64 405323966463343 (-53)) (binary64 10 0)))
  == fadd 60 (fmul sample_draw 10).
Proof. vm_compute. reflexivity. Qed.

Example round64_agrees_score :
  SF2Q (SFdiv 53 1024
          (binary64
             (Math_round
                (SF2Q (SFmul 53 1024
                         (SFadd 53 1024 (binary64 60 0)
                            (SFmul 53 1024 (binary64 405323966463343 (-53))
                               (binary64 10 0)))
                         (binary64 10 0)))) 0)
          (binary64 10 0))
  == round1_64 (fadd 60 (fmul sample_draw 10)).
Proof. vm_compute. reflexivity. Qed.

Example round64_agrees_third :
  SF2Q (SFdiv 53 1024 (binary64 1 0) (binary64 3 0)) == fdiv 1 3.
Proof. vm_compute. reflexivity. Qed.

Example round64_agrees_tenth :
  SF2Q (SFdiv 53 1024 (binary64 604 0) (binary64 10 0)) == fdiv 604 10.
Proof. vm_compute. reflexivity. Qed.

Example round64_agrees_subnormal_tie :
  SF2Q (SFmul 53 1024 (binary64 1 (-1074)) (binary64 3 (-1)))
  == fmul (2 ^ (-1074)) (3 # 2)
  /\ SF2Q (SFmul 53 1024 (binary64 1 (-1074)) (binary64 1 (-1)))
     == fmul (2 ^ (-1074)) (1 # 2).
Proof. split; vm_compute; reflexivity. Qed.

(** On [sample_draw] and without a shared keyword the score is 60.5 on
    doubles and 60.4 in exact arithmetic: the sum 60.449999999999996 times
    ten rounds to 604.5. *)
Example readings_differ :
  score (fst (calculateMatchingScore64 lower_ascii (fun _ => sample_draw)
                other_reporter (scenario_content "c1" "PUBLISHED") 0%nat)) == 60.5
  /\ score (fst (calculateMatchingScore lower_ascii (fun _ => sample_draw)
                   other_reporter (scenario_content "c1" "PUBLISHED") 0%nat)) == 60.4.
Proof. split; vm_compute; reflexivity. Qed.

(** ** calculateMatchingScore on doubles *)

Lemma shared_keyword_count_bound (toLowerCase : string -> string) (company text : string) :
  (shared_keyword_count toLowerCase company text <= 15)%nat.
Proof. unfold shared_keyword_count. apply (filter_length_le _ keywords). Qed.

(** The base score involves small integers only: no operation rounds. *)
Lemma baseScore64_exact (k : nat) : (k <= 15)%nat -> baseScore64 k == baseScore k.
Proof.
  intros H.
  assert (forallb (fun i => Qeq_bool (baseScore64 i) (baseScore i)) (seq 0 16) = true)
    as T by (vm_compute; reflexivity).
  rewrite forallb_forall in T. apply Qeq_bool_iff, T, in_seq. lia.
Qed.

Lemma baseScore_values (k : nat) :
  exists B : Z, (B = 60 \/ B = 75 \/ B = 90)%Z /\ baseScore k == inject_Z B
                /\ (k = 0%nat -> B = 60%Z) /\ (k = 1%nat -> B = 75%Z)
                /\ ((2 <= k)%nat -> B = 90%Z).
Proof.
  destruct (baseScore_cases k) as [B0 [B1 B2]].
  destruct k as [| [| k]].
  - exists 60%Z. split; [lia |]. split; [apply B0; reflexivity |].
    repeat split; intros; lia.
  - exists 75%Z. split; [lia |]. split; [apply B1; reflexivity |].
    repeat split; intros; lia.
  - exists 90%Z. split; [lia |]. split; [apply B2; lia |].
    repeat split; intros; lia.
Qed.

Lemma fadd_between (B : Z) (b r : Q) :
  b == inject_Z B -> (0 < B <= 1000)%Z -> 0 <= r < 10 ->
  inject_Z B <= fadd b r <= inject_Z B + 10.
Proof.
  intros E [B0 B1] [R0 R1]. unfold fadd.
  assert (0 < inject_Z B <= 1000) as [Q0 Q1].
  { split; [change 0 with (inject_Z 0); rewrite <- Zlt_Qlt; exact B0 |].
    change 1000 with (inject_Z 1000). rewrite <- Zle_Qle. exact B1. }
  assert (b + r < 2 ^ 53) by (change (2 ^ 53) with 9007199254740992; lra).
  split.
  - apply round64_ge_integer; [lra | assumption | lra].
  - assert (inject_Z B + 10 == inject_Z (B + 10)) as S
      by (rewrite inject_Z_plus; reflexivity).
    rewrite S. apply round64_le_integer; [lra | assumption | rewrite <- S; lra].
Qed.

Section Score64.

Variable toLowerCase : string -> string.
Variable rand : nat -> Q.

Lemma calculateMatchingScore64_score (reporter : ReporterProfile)
  (content : ContentProfile) (n : nat) :
  score (fst (calculateMatchingScore64 toLowerCase rand reporter content n))
  = round1_64 (fadd (baseScore64 (List.length (commonKeywords toLowerCase reporter content)))
                    (fmul (rand n) 10)).
Proof. reflexivity. Qed.

(** The sum of the base score and of the random term lies between the base
    score and ten more. *)
Lemma score64_sum (reporter : ReporterProfile) (content : ContentProfile) (n : nat) :
  is_double (rand n) -> 0 <= rand n < 1 ->
  let k := List.length (commonKeywords toLowerCase reporter content) in
  exists B : Z,
    baseScore64 k == inject_Z B
    /\ (k = 0%nat -> B = 60%Z) /\ (k = 1%nat -> B = 75%Z) /\ ((2 <= k)%nat -> B = 90%Z)
    /\ (0 < B <= 90)%Z
    /\ inject_Z B <= fadd (baseScore64 k) (fmul (rand n) 10) <= inject_Z B + 10.
Proof.
  intros D U. cbv zeta.
  set (k := List.length (commonKeywords toLowerCase reporter content)).
  assert (k <= 15)%nat as K15.
  { unfold k. rewrite commonKeywords_catalog. apply (filter_length_le _ keywords). }
  destruct (baseScore_values k) as [B [HB [E [V0 [V1 V2]]]]].
  assert (baseScore64 k == inject_Z B) as E64
    by (eapply Qeq_trans; [apply baseScore64_exact, K15 | exact E]).
  exists B. split; [exact E64 |]. repeat (split; [assumption |]).
  split; [lia |].
  apply fadd_between; [exact E64 | lia |].
  apply draw_term; assumption.
Qed.

Lemma baseScore64_min (k : nat) :
  (k <= 15)%nat -> baseScore64 k == Math_min 90 (inject_Z (Z.of_nat k) * 15 + 60).
Proof.
  intros H. pose proof (baseScore64_exact k H) as E. unfold baseScore in E. exact E.
Qed.

Lemma calculateMatchingScore64_count (reporter : ReporterProfile)
  (content : ContentProfile) (n k : nat) :
  List.length (commonKeywords toLowerCase reporter content) = k ->
  score (fst (calculateMatchingScore64 toLowerCase rand reporter content n))
  = round1_64 (fadd (baseScore64 k) (fmul (rand n) 10)).
Proof. intros <-. reflexivity. Qed.

Lemma score64_one_decimal (reporter : ReporterProfile) (content : ContentProfile)
  (n k : nat) :
  is_double (rand n) -> 0 <= rand n < 1 ->
  List.length (commonKeywords toLowerCase reporter content) = k ->
  exists z : Z,
    score (fst (calculateMatchingScore64 toLowerCase rand reporter content n))
    = round64 (inject_Z z / 10)
    /\ Qabs (inject_Z z / 10 - fadd (baseScore64 k) (fmul (rand n) 10))
       <= (1 # 20) + 2 ^ (-47)
    /\ Qabs (score (fst (calculateMatchingScore64 toLowerCase rand reporter content n))
             - inject_Z z / 10) <= 2 ^ (-47).
Proof.
  intros D U <-.
  destruct (score64_sum reporter content n D U) as [B [_ [_ [_ [_ [HB S]]]]]].
  rewrite calculateMatchingScore64_score.
  assert (1 <= inject_Z B <= 90) as [Q0 Q1].
  { split; [change 1 with (inject_Z 1) | change 90 with (inject_Z 90)];
      rewrite <- Zle_Qle; lia. }
  refine (round1_64_one_decimal _ _). lra.
Qed.

(** C2: on doubles, as the code computes it, the score is the rounding to
    one decimal of min(90, k*15 + 60) + r, where r, ten times the draw, is
    in [0,10), and k counts the catalog keywords found in the reporter's
    company that some catalog keyword found in title + " " + summary
    contains, all case-insensitively.  The base score is computed without
    rounding; the rounding to one decimal yields the double nearest to a
    number of tenths within a twentieth of the sum, up to the rounding of a
    product. *)
Theorem score_formula_binary64 (reporter : ReporterProfile) (content : ContentProfile)
  (n : nat) :
  is_double (rand n) ->
  0 <= rand n < 1 ->
  let k := shared_keyword_count toLowerCase (r_company reporter)
                                (c_title content ++ " " ++ c_summary content) in
  let result := fst (calculateMatchingScore64 toLowerCase rand reporter content n) in
  List.length (commonKeywords toLowerCase reporter content) = k
  /\ baseScore64 k == Math_min 90 (inject_Z (Z.of_nat k) * 15 + 60)
  /\ exists r : Q,
       r = fmul (rand n) 10
       /\ 0 <= r < 10
       /\ score result = round1_64 (fadd (baseScore64 k) r)
       /\ exists z : Z,
            score result = round64 (inject_Z z / 10)
            /\ Qabs (inject_Z z / 10 - fadd (baseScore64 k) r) <= (1 # 20) + 2 ^ (-47)
            /\ Qabs (score result - inject_Z z / 10) <= 2 ^ (-47).
Proof.
  intros D U. cbv zeta.
  assert (List.length (commonKeywords toLowerCase reporter content)
          = shared_keyword_count toLowerCase (r_company reporter)
              (c_title content ++ " " ++ c_summary content)) as K.
  { rewrite commonKeywords_catalog. reflexivity. }
  split; [exact K |].
  split; [apply baseScore64_min, shared_keyword_count_bound |].
  exists (fmul (rand n) 10). split; [reflexivity |].
  split; [exact (draw_term (rand n) D U) |].
  split; [apply calculateMatchingScore64_count, K |].
  apply score64_one_decimal; assumption.
Qed.

(** X16: on doubles too the score falls in the band of the number of shared
    keywords: 60 to 70 without one, 75 to 85 with exactly one, 90 to 100
    with two or more; whichever double in [0,1) is drawn, it reaches 75
    exactly when a keyword is shared and exceeds 85 exactly when two are. *)
Theorem score_bands_binary64 (reporter : ReporterProfile) (content : ContentProfile)
  (n : nat) :
  is_double (rand n) ->
  0 <= rand n < 1 ->
  let k := List.length (commonKeywords toLowerCase reporter content) in
  let s := score (fst (calculateMatchingScore64 toLowerCase rand reporter content n)) in
  (k = 0%nat -> 60 <= s <= 70)
  /\ (k = 1%nat -> 75 <= s <= 85)
  /\ ((2 <= k)%nat -> 90 <= s <= 100)
  /\ (ge_num s 75 = true <-> (1 <= k)%nat)
  /\ (gt_num s 85 = true <-> (2 <= k)%nat).
Proof.
  intros D U. cbv zeta. rewrite calculateMatchingScore64_score.
  destruct (score64_sum reporter content n D U) as [B [_ [V0 [V1 [V2 [HB S]]]]]].
  assert (inject_Z B <= round1_64
            (fadd (baseScore64 (List.length (commonKeywords toLowerCase reporter content)))
                  (fmul (rand n) 10)) <= inject_Z B + 10) as R
    by (apply round1_64_between; [lia | exact S]).
  set (s := round1_64 _) in *.
  set (k := List.length (commonKeywords toLowerCase reporter content)) in *.
  rewrite ge_num_spec, gt_num_spec.
  destruct k as [| [| k]].
  - rewrite (V0 eq_refl) in R. change (inject_Z 60) with 60 in R.
    repeat split; intros; try lia; lra.
  - rewrite (V1 eq_refl) in R. change (inject_Z 75) with 75 in R.
    repeat split; intros; try lia; lra.
  - assert (B = 90%Z) as E by (apply V2; lia). rewrite E in R.
    change (inject_Z 90) with 90 in R.
    repeat split; intros; try lia; lra.
Qed.

End Score64.

Lemma score_formula_binary64_witness :
  exists r : Q,
    r = fmul sample_draw 10
    /\ 0 <= r < 10
    /\ score (fst (calculateMatchingScore64 lower_ascii (fun _ => sample_draw)
                     other_reporter (scenario_content "c1" "PUBLISHED") 0%nat))
       = round1_64
           (fadd (baseScore64
                    (shared_keyword_count lower_ascii (r_company other_reporter)
                       (c_title (scenario_content "c1" "PUBLISHED") ++ " "
                        ++ c_summary (scenario_content "c1" "PUBLISHED"))))
                 r).
Proof.
  destruct (score_formula_binary64 lower_ascii (fun _ => sample_draw)
              other_reporter (scenario_content "c1" "PUBLISHED") 0%nat)
    as [_ [_ [r [Hr [Hb [Hs _]]]]]].
  - vm_compute. reflexivity.
  - vm_compute. split; [discriminate | reflexivity].
  - exists r. split; [exact Hr |]. split; [exact Hb | exact Hs].
Defined.

Lemma score_bands_binary64_witness :
  60 <= score (fst (calculateMatchingScore64 lower_ascii (fun _ => sample_draw)
                      other_reporter (scenario_content "c1" "PUBLISHED") 0%nat)) <= 70.
Proof.
  apply (score_bands_binary64 lower_ascii (fun _ => sample_draw)
           other_reporter (scenario_content "c1" "PUBLISHED") 0%nat).
  - vm_compute. reflexivity.
  - vm_compute. split; [discriminate | reflexivity].
  - reflexivity.
Defined.
